(** * Trade-to-market alignment and whale detection (kalshi-whale-static)

    A shallow embedding of the refresh cycle of [lib/react-query]
    ([useAlignedMarkets], [useWhaleAlerts]) and of the proxy route
    [app/api/kalshi/market/[ticker]/route.ts], with the properties the
    specification states about them.

    Conventions of the embedding.
    - A JavaScript number is an exact rational ([Q]): the statements are
      about the arithmetic the code writes down, not about rounding.  The
      operations the pipeline applies are a product, a division by 100, a
      product by 0.125 and comparisons; on the inputs of the scenarios
      below every intermediate value (50000, 500, 62.5, 600, 60) is exact
      in double precision as well.
    - A property that may be missing from an upstream JSON object is an
      [option]; [None] is JavaScript's [undefined].
    - A [Map] is an insertion-ordered association list ([JsMap]).
    - A promise that has settled is a [Settled] value; code that may throw
      outside a promise has a [Completion]. *)

From Stdlib Require Import List String Ascii Bool Arith ZArith QArith Lia Lqa.
From Stdlib Require Import DecimalString.
Import ListNotations.

Close Scope Q_scope.
Local Open Scope string_scope.
Local Open Scope list_scope.

Set Implicit Arguments.

(** ** JavaScript helpers *)

Module Js.

(** [a > b] on numbers. *)
Definition gt (a b : Q) : bool := negb (Qle_bool a b).

(** [x || d] where [x] is a number or undefined: 0 is falsy. *)
Definition num_or (x : option Q) (d : Q) : Q :=
  match x with
  | Some q => if Qeq_bool q 0 then d else q
  | None => d
  end.

(** Truthiness of a string or undefined: the empty string is falsy. *)
Definition truthy (x : option string) : bool :=
  match x with
  | Some s => negb (String.eqb s "")
  | None => false
  end.

(** [x || d] where [x] is a string or undefined. *)
Definition str_or (x : option string) (d : string) : string :=
  match x with
  | Some s => if String.eqb s "" then d else s
  | None => d
  end.

(** [String.prototype.toLowerCase], on the ASCII letters. *)
Definition lower_ascii (c : ascii) : ascii :=
  let n := nat_of_ascii c in
  if ((65 <=? n) && (n <=? 90))%nat then ascii_of_nat (n + 32) else c.

Fixpoint toLowerCase (s : string) : string :=
  match s with
  | EmptyString => EmptyString
  | String c s' => String (lower_ascii c) (toLowerCase s')
  end.

(** [String.prototype.includes]. *)
Fixpoint includes (s keyword : string) : bool :=
  String.prefix keyword s
  || match s with
     | EmptyString => false
     | String _ s' => includes s' keyword
     end.

(** [String.prototype.startsWith]. *)
Definition startsWith (s p : string) : bool := String.prefix p s.

(** White space removed by [String.prototype.trim] (the ASCII part:
    tab, line feed, vertical tab, form feed, carriage return, space). *)
Definition is_space (c : ascii) : bool :=
  let n := nat_of_ascii c in
  (((9 <=? n) && (n <=? 13)) || (n =? 32))%nat.

Fixpoint trimStart (s : string) : string :=
  match s with
  | EmptyString => EmptyString
  | String c s' => if is_space c then trimStart s' else s
  end.

(** [trimEnd] drops the trailing white space: a character is kept when
    something other than white space follows or it is not white space. *)
Fixpoint trimEnd (s : string) : string :=
  match s with
  | EmptyString => EmptyString
  | String c s' =>
      match trimEnd s' with
      | EmptyString => if is_space c then EmptyString else String c EmptyString
      | rest => String c rest
      end
  end.

Definition trim (s : string) : string := trimEnd (trimStart s).

End Js.

(** The outcome of an awaited promise ([Promise.allSettled], or [await]
    inside [try]/[catch]). *)
Inductive Settled (A : Type) : Type :=
| fulfilled (value : A)
| rejected.
Arguments rejected {A}.

(** What a piece of synchronous code does: it returns a value or it
    throws. *)
Inductive Completion (A : Type) : Type :=
| returns (value : A)
| throws.
Arguments throws {A}.

(** ** [Map]: insertion-ordered, keyed by strings *)

Module JsMap.
Section Ops.
Variable V : Type.

Definition t := list (string * V).

Definition empty : t := [].

Fixpoint get (m : t) (k : string) : option V :=
  match m with
  | [] => None
  | (k', v) :: m' => if String.eqb k' k then Some v else get m' k
  end.

Definition has (m : t) (k : string) : bool :=
  match get m k with Some _ => true | None => false end.

(** [set] keeps the position of a key that is already present and
    appends a new key at the end. *)
Fixpoint set (m : t) (k : string) (v : V) : t :=
  match m with
  | [] => [(k, v)]
  | (k', v') :: m' =>
      if String.eqb k' k then (k', v) :: m' else (k', v') :: set m' k v
  end.

Definition keys (m : t) : list string := map fst m.
Definition values (m : t) : list V := map snd m.
Definition size (m : t) : nat := List.length m.
End Ops.
Arguments empty {V}.
End JsMap.

(** ** Data model ([types/index.ts]) *)

(** [interface Trade].  [count], [price] and [trade_id] are read through
    [|| default] in the pipeline, so they may be missing. *)
Record Trade : Type := {
  ticker : string;
  count : option Q;
  price : option Q;
  yes_price : option Q;
  no_price : option Q;
  taker_side : option string;
  trade_id : option string;
  created_time : string
}.

(** The record a market (or event) lookup resolves to: the properties of
    the upstream object that the pipeline reads.  By [AlignedTrade extends
    Trade, Partial<Market>] it shares no property with [Trade]. *)
Record MarketMetadata : Type := {
  md_market_id : option string;
  md_title : option string;
  md_category_name : option string;
  md_last_price : option Q;
  md_volume : option Q;
  md_volume_24h : option Q;
  md_previous_price : option Q;
  md_yes_ask : option Q;
  md_yes_bid : option Q;
  md_expiration_time : option string;
  md_yes_sub_title : option string;
  md_no_sub_title : option string;
  md_frequency : option string;
  md_status : option string;
  md_event_ticker : option string;
  md_open_time : option string;
  md_close_time : option string;
  md_yes_bid_dollars : option string;
  md_no_bid_dollars : option string
}.

(** [interface TradesResponse], as [fetcher] may deliver it. *)
Record TradesResponse : Type := {
  trades : option (list Trade);
  cursor : option string
}.

(** The body of a fulfilled lookup, as the resolver reads it; [fetcher]
    returns whatever JSON the route sent.  A body whose [market] is a
    record ([MarketResponse]); a body whose [market] is missing or null
    and whose [event] is a record ([EventResponse]); a body, such as [{}],
    in which [market] and [event] are both missing or null
    ([OtherResponse]); the JSON value [null] ([NullResponse]). *)
Inductive LookupResponse : Type :=
| MarketResponse (market : MarketMetadata)
| EventResponse (event : MarketMetadata)
| OtherResponse
| NullResponse.

(** [interface Market]: the per-market rollup. *)
Record Market : Type := {
  id : string;
  question : string;
  title : string;
  category : string;
  ticker_symbol : string;
  last_price : option Q;
  volume : option Q;
  last_update : string;
  expiration_time : string;
  yes_sub_title : string;
  no_sub_title : string;
  cadence : string;
  status : string;
  event_ticker : string;
  open_time : string;
  close_time : string;
  outcomes : list string;
  high_volume : bool;
  trending : bool;
  high_liquidity : bool;
  recent : bool;
  yes_bid_dollars : option string;
  no_bid_dollars : option string;
  volume_24h : option Q;
  previous_price : option Q;
  yes_ask : option Q;
  yes_bid : option Q
}.

(** [interface MarketsResponse]. *)
Record MarketsResponse : Type := {
  markets : list Market;
  markets_count : nat;
  markets_timestamp : string
}.

(** ** The upstream seen by one refresh cycle

    [tradesPage i c] is the outcome of the [i]-th call of
    [fetcher('/api/kalshi/trades?limit=1000' + cursor)] with cursor [c];
    [marketInfo k] is the outcome of [fetcher('/api/kalshi/market/' + k)];
    [now] is what [new Date().toISOString()] returns. *)
Record Upstream : Type := {
  tradesPage : nat -> option string -> Settled TradesResponse;
  marketInfo : string -> Settled LookupResponse;
  now : string
}.

(** ** Trade Paginator ([queryFn], the pagination loop) *)

Definition MAX_PAGES_TO_FETCH : nat := 5.

(** State of the loop: the accumulator, the cursor, and the list of the
    requests issued so far (their cursors), oldest first. *)
Record PageLoop : Type := {
  allTrades : list Trade;
  currentCursor : option string;
  requests : list (option string)
}.

(** [for (let i = ...; i < MAX_PAGES_TO_FETCH; i++)] with [remaining]
    iterations left.  A rejected fetch and a response without a truthy
    cursor both [break]. *)
Fixpoint pagination_loop (up : Upstream) (remaining i : nat) (st : PageLoop)
  : PageLoop :=
  match remaining with
  | O => st
  | S remaining' =>
      let sent := if Js.truthy (currentCursor st) then currentCursor st else None in
      let log := requests st ++ [sent] in
      match tradesPage up i sent with
      | fulfilled tradeData =>
          let acc := match trades tradeData with
                     | Some ts => allTrades st ++ ts
                     | None => allTrades st
                     end in
          if Js.truthy (cursor tradeData)
          then pagination_loop up remaining' (S i)
                 {| allTrades := acc;
                    currentCursor := cursor tradeData;
                    requests := log |}
          else {| allTrades := acc;
                  currentCursor := currentCursor st;
                  requests := log |}
      | rejected =>
          {| allTrades := allTrades st;
             currentCursor := currentCursor st;
             requests := log |}
      end
  end.

Definition paginate (up : Upstream) : PageLoop :=
  pagination_loop up MAX_PAGES_TO_FETCH 0
    {| allTrades := []; currentCursor := None; requests := [] |}.

(** ** Market Resolver *)

(** [[...new Set(xs)]]: the distinct elements, in order of first
    occurrence; [seen] is the set built so far. *)
Fixpoint new_Set (xs seen : list string) : list string :=
  match xs with
  | [] => seen
  | x :: xs' =>
      if existsb (String.eqb x) seen
      then new_Set xs' seen
      else new_Set xs' (seen ++ [x])
  end.

Definition marketTickers (trades : list Trade) : list string :=
  new_Set (map ticker trades) [].

(** [Promise.allSettled(marketTickers.map(ticker => fetcher(...)))]. *)
Definition marketInfoResults (up : Upstream) (tickers : list string)
  : list (Settled LookupResponse) :=
  map (marketInfo up) tickers.

(** [result.value.market || result.value.event]: undefined ([None]) when
    the body has neither; reading [.market] of [null] throws a
    TypeError. *)
Definition marketData (value : LookupResponse)
  : Completion (option MarketMetadata) :=
  match value with
  | MarketResponse market => returns (Some market)
  | EventResponse event => returns (Some event)
  | OtherResponse => returns None
  | NullResponse => throws
  end.

(** The callback of [marketInfoResults.forEach((result, index) => ...)]:
    the data of a fulfilled result is stored under [marketTickers[index]]
    without a check, a rejected result is passed over. *)
Definition cache_step (cache : JsMap.t (option MarketMetadata))
  (entry : string * Settled LookupResponse)
  : Completion (JsMap.t (option MarketMetadata)) :=
  match snd entry with
  | fulfilled value =>
      match marketData value with
      | returns data => returns (JsMap.set cache (fst entry) data)
      | throws => throws
      end
  | rejected => returns cache
  end.

(** [forEach]: the callback on every entry in turn, up to the first
    throw. *)
Fixpoint forEach (entries : list (string * Settled LookupResponse))
  (cache : JsMap.t (option MarketMetadata))
  : Completion (JsMap.t (option MarketMetadata)) :=
  match entries with
  | [] => returns cache
  | entry :: entries' =>
      match cache_step cache entry with
      | returns cache' => forEach entries' cache'
      | throws => throws
      end
  end.

(** The table [marketInfoCache]: its values may be undefined. *)
Definition marketInfoCache (tickers : list string)
  (results : list (Settled LookupResponse))
  : Completion (JsMap.t (option MarketMetadata)) :=
  forEach (combine tickers results) JsMap.empty.

(** Some value of the table is undefined.  The loop of Pass 1 reads
    [market.volume_24h] of every value, which throws a TypeError at an
    undefined one. *)
Definition has_undefined (table : JsMap.t (option MarketMetadata)) : bool :=
  existsb (fun value => match value with Some _ => false | None => true end)
    (JsMap.values table).

(** The entries of the table whose value is a record.  When no value is
    undefined this is the table itself, and the passes below work on it. *)
Fixpoint records_of (table : JsMap.t (option MarketMetadata))
  : JsMap.t MarketMetadata :=
  match table with
  | [] => []
  | (k, Some market) :: table' => (k, market) :: records_of table'
  | (k, None) :: table' => records_of table'
  end.

(** ** Alignment and Rollup Engine *)

(** *** Pass 1: the whale threshold *)

Definition marketNotionalVolume24h (market : MarketMetadata) : Q :=
  (Js.num_or (md_volume_24h market) 0 * Js.num_or (md_last_price market) 0
   / 100)%Q.

Definition max_step (maxNotionalVolume : Q) (market : MarketMetadata) : Q :=
  if Js.gt (marketNotionalVolume24h market) maxNotionalVolume
  then marketNotionalVolume24h market
  else maxNotionalVolume.

Definition maxNotionalVolume (cache : JsMap.t MarketMetadata) : Q :=
  fold_left max_step (JsMap.values cache) 0%Q.

Definition whaleThreshold (cache : JsMap.t MarketMetadata) : Q :=
  (maxNotionalVolume cache * 0.125)%Q.

(** *** Alignment: [{...trade, ...marketDetails, id: ...}] *)

Record AlignedTrade : Type := {
  trade : Trade;
  marketDetails : option MarketMetadata;
  aligned_id : string
}.

Definition align (cache : JsMap.t MarketMetadata) (t : Trade) : AlignedTrade :=
  {| trade := t;
     marketDetails := JsMap.get cache (ticker t);
     aligned_id :=
       Js.str_or (trade_id t) (ticker t ++ "-" ++ created_time t) |}.

(** A property that the aligned trade inherits from the market details:
    undefined when the ticker did not resolve. *)
Definition detail (A : Type) (f : MarketMetadata -> option A)
  (alignedTrade : AlignedTrade) : option A :=
  match marketDetails alignedTrade with
  | Some d => f d
  | None => None
  end.

(** *** Pass 2: classification and fold *)

Definition tradeNotionalValue (alignedTrade : AlignedTrade) : Q :=
  (Js.num_or (count (trade alignedTrade)) 0
   * Js.num_or (price (trade alignedTrade)) 0)%Q.

Definition isWhaleTrade (whaleThreshold : Q) (alignedTrade : AlignedTrade)
  : bool :=
  Js.gt (tradeNotionalValue alignedTrade) whaleThreshold.

(** The entry created for the first trade of a market. *)
Definition new_entry (a : AlignedTrade) (isWhale : bool) : Market :=
  {| id := Js.str_or (detail md_market_id a) (ticker (trade a));
     question := Js.str_or (detail md_title a) "Unknown Title";
     title := Js.str_or (detail md_title a) "Unknown Title";
     category := Js.str_or (detail md_category_name a) "Crypto";
     ticker_symbol := ticker (trade a);
     last_price := detail md_last_price a;
     volume := detail md_volume a;
     last_update := created_time (trade a);
     expiration_time := Js.str_or (detail md_expiration_time a) "";
     yes_sub_title := Js.str_or (detail md_yes_sub_title a) "YES";
     no_sub_title := Js.str_or (detail md_no_sub_title a) "NO";
     cadence := Js.str_or (detail md_frequency a) "N/A";
     status := Js.str_or (detail md_status a) "open";
     event_ticker := Js.str_or (detail md_event_ticker a) "";
     open_time := Js.str_or (detail md_open_time a) "";
     close_time := Js.str_or (detail md_close_time a) "";
     outcomes := [];
     high_volume := isWhale;
     trending := true;
     high_liquidity := true;
     recent := true;
     yes_bid_dollars := detail md_yes_bid_dollars a;
     no_bid_dollars := detail md_no_bid_dollars a;
     volume_24h := detail md_volume_24h a;
     previous_price := detail md_previous_price a;
     yes_ask := detail md_yes_ask a;
     yes_bid := detail md_yes_bid a |}.

(** The assignments to [existingMarket] for a later trade of a market. *)
Definition update_entry (existingMarket : Market) (a : AlignedTrade)
  (isWhale : bool) : Market :=
  {| id := id existingMarket;
     question := question existingMarket;
     title := title existingMarket;
     category := category existingMarket;
     ticker_symbol := ticker_symbol existingMarket;
     last_price := detail md_last_price a;
     volume := detail md_volume a;
     last_update := created_time (trade a);
     expiration_time := expiration_time existingMarket;
     yes_sub_title := yes_sub_title existingMarket;
     no_sub_title := no_sub_title existingMarket;
     cadence := cadence existingMarket;
     status := status existingMarket;
     event_ticker := event_ticker existingMarket;
     open_time := open_time existingMarket;
     close_time := close_time existingMarket;
     outcomes := outcomes existingMarket;
     high_volume := if isWhale then true else high_volume existingMarket;
     trending := trending existingMarket;
     high_liquidity := high_liquidity existingMarket;
     recent := recent existingMarket;
     yes_bid_dollars := yes_bid_dollars existingMarket;
     no_bid_dollars := no_bid_dollars existingMarket;
     volume_24h := volume_24h existingMarket;
     previous_price := previous_price existingMarket;
     yes_ask := yes_ask existingMarket;
     yes_bid := yes_bid existingMarket |}.

(** One iteration of [for (const alignedTrade of alignedMarkets)]. *)
Definition fold_trade (cache : JsMap.t MarketMetadata) (whaleThreshold : Q)
  (marketsMap : JsMap.t Market) (alignedTrade : AlignedTrade)
  : JsMap.t Market :=
  let key := ticker (trade alignedTrade) in
  if negb (JsMap.has cache key) then marketsMap
  else
    let isWhale := isWhaleTrade whaleThreshold alignedTrade in
    if negb (JsMap.has marketsMap key)
    then JsMap.set marketsMap key (new_entry alignedTrade isWhale)
    else
      match JsMap.get marketsMap key with
      | Some existingMarket =>
          JsMap.set marketsMap key
            (update_entry existingMarket alignedTrade isWhale)
      | None => marketsMap
      end.

Definition marketsMap (cache : JsMap.t MarketMetadata) (trades : list Trade)
  : JsMap.t Market :=
  fold_left (fold_trade cache (whaleThreshold cache))
    (map (align cache) trades) JsMap.empty.

(** *** Pass 3: output filtering *)

Definition cryptoKeywords : list string :=
  [ "btc"; "eth"; "crypto"; "bitcoin"; "ethereum";
    "sol"; "solana"; "bch"; "ada"; "cardano"; "matic";
    "polygon"; "dot"; "polkadot"; "link"; "chainlink";
    "ltc"; "litecoin"; "xrp" ].

Definition is_titled (market : Market) : bool :=
  negb (String.eqb (title market) "")
  && negb (String.eqb (Js.trim (title market)) "")
  && negb (String.eqb (title market) "Unknown Title").

Definition is_crypto (market : Market) : bool :=
  let ticker := Js.toLowerCase (ticker_symbol market) in
  let title := Js.toLowerCase (title market) in
  existsb (fun keyword => Js.includes ticker keyword || Js.includes title keyword)
    cryptoKeywords.

Definition filteredCryptoMarkets (finalMarkets : list Market) : list Market :=
  filter is_crypto (filter is_titled finalMarkets).

(** ** The refresh cycle ([queryFn] of [useAlignedMarkets]) *)

(** After the pagination nothing is caught: a TypeError of the [forEach]
    at a null body, or of Pass 1 at an undefined value of the table,
    rejects the query. *)
Definition queryFn (up : Upstream) : Settled MarketsResponse :=
  let trades := allTrades (paginate up) in
  let tickers := marketTickers trades in
  match marketInfoCache tickers (marketInfoResults up tickers) with
  | throws => rejected
  | returns table =>
      if has_undefined table then rejected
      else
        let cache := records_of table in
        let finalMarkets := JsMap.values (marketsMap cache trades) in
        let result := filteredCryptoMarkets finalMarkets in
        fulfilled {| markets := result;
                     markets_count := List.length result;
                     markets_timestamp := now up |}
  end.

(** [useQuery]: what a component sees once the query has settled. *)
Record QueryResult : Type := {
  data : option MarketsResponse;
  isError : bool
}.

Definition useAlignedMarkets (up : Upstream) : QueryResult :=
  match queryFn up with
  | fulfilled response => {| data := Some response; isError := false |}
  | rejected => {| data := None; isError := true |}
  end.

Definition useMarkets (up : Upstream) : QueryResult := useAlignedMarkets up.

(** ** Whale alerts view ([useWhaleAlerts]) *)

Module WhaleAlerts.

(** [interface WhaleSignal], the properties [useWhaleAlerts] sets. *)
Record WhaleSignal : Type := {
  ws_id : string;
  ws_type : string;
  ws_ticker : string;
  ws_severity : string;
  ws_confidence : Q;
  ws_market_impact : string;
  ws_current_value : option Q;
  ws_growth_multiple : Q;
  ws_timestamp : string;
  ws_description : string
}.

Record DetectionTypes : Type := {
  volume_surge : bool;
  odds_flip : bool;
  order_book_shift : bool;
  dt_high_volume : bool
}.

Record Thresholds : Type := {
  volume_surge_multiplier : Q;
  odds_change_percent : Q;
  order_book_change_percent : Q;
  minimum_volume : Q
}.

(** [interface WhaleAlertsData]. *)
Record WhaleAlertsData : Type := {
  alerts : list WhaleSignal;
  count : nat;
  whale_signals_count : nat;
  high_volume_count : nat;
  detection_types : DetectionTypes;
  thresholds : Thresholds
}.

(** [interface WhaleAlertsResponse]. *)
Record WhaleAlertsResponse : Type := {
  data : WhaleAlertsData;
  response_timestamp : string;
  response_status : string
}.

Definition to_signal (m : Market) : WhaleSignal :=
  {| ws_id := "hv-" ++ id m;
     ws_type := "volume_surge";
     ws_ticker := Js.str_or (Some (ticker_symbol m)) "N/A";
     ws_severity := "medium";
     ws_confidence := 80%Q;
     ws_market_impact := "high";
     ws_current_value := volume m;
     ws_growth_multiple := 3.5%Q;
     ws_timestamp := last_update m;
     ws_description := "Whale activity detected on " ++ title m |}.

(** [(marketData?.markets || []).filter(m => m.high_volume).map(...)]. *)
Definition whaleAlerts (marketData : option MarketsResponse)
  : list WhaleSignal :=
  map to_signal
    (filter high_volume
       (match marketData with
        | Some response => markets response
        | None => []
        end)).

Definition useWhaleAlerts (marketData : option MarketsResponse)
  (now : string) : WhaleAlertsResponse :=
  let whaleAlerts := whaleAlerts marketData in
  {| data :=
       {| alerts := whaleAlerts;
          count := List.length whaleAlerts;
          whale_signals_count := List.length whaleAlerts;
          high_volume_count := List.length whaleAlerts;
          detection_types :=
            {| volume_surge := true; odds_flip := false;
               order_book_shift := false; dt_high_volume := true |};
          thresholds :=
            {| volume_surge_multiplier := 3%Q;
               odds_change_percent := 15%Q;
               order_book_change_percent := 25%Q;
               minimum_volume := 100000%Q |} |};
     response_timestamp := now;
     response_status := "success" |}.

End WhaleAlerts.

(** ** The proxy route [GET /api/kalshi/market/[ticker]] *)

Module Route.

(** What the upstream API answers to one [fetch(url)]: the status, the
    body as [json()] parses it ([None]: not JSON, [json()] throws) and as
    [text()] reads it. *)
Record Response (J : Type) : Type := {
  status : nat;
  json : option J;
  text : string
}.

(** [Response.ok]: a status in the range 200-299. *)
Definition ok (status : nat) : bool :=
  ((200 <=? status) && (status <=? 299))%nat.

(** The JSON a route answers with: the upstream data passed through, or
    a message with an optional error text. *)
Inductive Body (J : Type) : Type :=
| Data (data : J)
| Failure (message : string) (error : option string).
Arguments Failure {J}.

Record NextResponse (J : Type) : Type := {
  nr_status : nat;
  nr_body : Body J
}.

Definition KALSHI_API_BASE : string :=
  "https://api.elections.kalshi.com/trade-api/v2".

Definition ALLOWED_TICKER_PREFIXES : list string :=
  [ "KXBTC"; "KXETH"; "KXSOL"; "KXCRYPTO"; "KXBCH"; "KXADA";
    "KXMATIC"; "KXDOT"; "KXLINK"; "KXLTC"; "KXXRP" ].

(** [`${KALSHI_API_BASE}/markets/${ticker}`] and
    [`${KALSHI_API_BASE}/events/${ticker}`]. *)
Definition markets_url (ticker : string) : string :=
  KALSHI_API_BASE ++ "/markets/" ++ ticker.

Definition events_url (ticker : string) : string :=
  KALSHI_API_BASE ++ "/events/" ++ ticker.

(** The null body statuses of the Fetch standard. *)
Definition null_body_status (status : nat) : bool :=
  existsb (Nat.eqb status) [101; 103; 204; 205; 304]%nat.

(** The statuses with which a response that has a body can be
    constructed. *)
Definition carries_body (status : nat) : bool :=
  ((200 <=? status) && (status <=? 599))%nat
  && negb (null_body_status status).

Section Handlers.
Variable J : Type.

(** The upstream: the outcome of [fetch(url)]; [rejected] is a network
    error, on which [fetch] throws. *)
Variable upstream : string -> Settled (Response J).

(** A handler runs against the upstream, records the URLs it fetches
    and either returns or throws. *)
Definition Handler (A : Type) : Type :=
  list string -> Settled A * list string.

Definition ret (A : Type) (a : A) : Handler A :=
  fun log => (fulfilled a, log).

Definition bind (A B : Type) (m : Handler A) (k : A -> Handler B)
  : Handler B :=
  fun log =>
    match m log with
    | (fulfilled a, log') => k a log'
    | (rejected, log') => (rejected, log')
    end.

Definition fetch (url : string) : Handler (Response J) :=
  fun log => (upstream url, log ++ [url]).

Definition json_of (r : Response J) : Handler J :=
  fun log =>
    (match json r with Some d => fulfilled d | None => rejected end, log).

Definition try_catch (A : Type) (body handler : Handler A) : Handler A :=
  fun log =>
    match body log with
    | (fulfilled a, log') => (fulfilled a, log')
    | (rejected, log') => handler log'
    end.

Notation "x <- m ;; k" := (bind m (fun x => k))
  (at level 61, m at next level, right associativity).

Definition throw (A : Type) : Handler A :=
  fun log => (rejected, log).

(** [NextResponse.json(body, { status })] constructs a response with a
    body: the constructor throws a RangeError for a status outside 200-599
    and a TypeError for a null body status. *)
Definition respond (status : nat) (body : Body J)
  : Handler (NextResponse J) :=
  if carries_body status
  then ret {| nr_status := status; nr_body := body |}
  else throw _.

Definition failed_to_fetch (ticker : string) (apiResponse : Response J)
  : Handler (NextResponse J) :=
  respond (status apiResponse)
    (Failure ("Failed to fetch data for ticker " ++ ticker)
       (Some (text apiResponse))).

(** The answer of the [catch]; its [error] property, the message of the
    error caught, is not modelled. *)
Definition internal_error : Handler (NextResponse J) :=
  respond 500 (Failure "Internal Server Error" None).

(** [app/api/kalshi/market/[ticker]/route.ts]: the scope-restricted
    route, without the event fallback. *)
Definition GET (ticker : string) : Handler (NextResponse J) :=
  if String.eqb ticker ""
  then respond 400 (Failure "Market ticker is required" None)
  else if negb (existsb (Js.startsWith ticker) ALLOWED_TICKER_PREFIXES)
  then respond 422
         (Failure ("Ticker " ++ ticker ++ " is not a relevant crypto market.")
            None)
  else
    try_catch
      (apiResponse <- fetch (markets_url ticker) ;;
       if ok (status apiResponse)
       then data <- json_of apiResponse ;; respond 200 (Data data)
       else failed_to_fetch ticker apiResponse)
      internal_error.

(** The earlier revision of the route: a market lookup answered with
    404 is tried again as an event. *)
Definition GET_event_fallback (ticker : string) : Handler (NextResponse J) :=
  if String.eqb ticker ""
  then respond 400 (Failure "Market ticker is required" None)
  else
    try_catch
      (apiResponse <- fetch (markets_url ticker) ;;
       if ok (status apiResponse)
       then data <- json_of apiResponse ;; respond 200 (Data data)
       else if Nat.eqb (status apiResponse) 404
       then
         apiResponse <- fetch (events_url ticker) ;;
         if ok (status apiResponse)
         then data <- json_of apiResponse ;; respond 200 (Data data)
         else failed_to_fetch ticker apiResponse
       else failed_to_fetch ticker apiResponse)
      internal_error.



End Handlers.

End Route.

(** ** Notions used to state the properties *)

(** The trades a settled page request contributes to the accumulator. *)
Definition page_trades (page : Settled TradesResponse) : list Trade :=
  match page with
  | fulfilled tradeData =>
      match trades tradeData with Some ts => ts | None => [] end
  | rejected => []
  end.

(** The requests of a log paired with their ordinals. *)
Definition numbered (log : list (option string)) : list (nat * option string) :=
  combine (seq 0 (List.length log)) log.

(** The trades of all the pages a log of requests fetched, page by page. *)
Definition fetched_trades (up : Upstream) (log : list (option string))
  : list Trade :=
  flat_map (fun req => page_trades (tradesPage up (fst req) (snd req)))
    (numbered log).

(** The invariant of the pagination loop: the log has one entry per
    iteration already run, and the accumulator holds the trades of the
    pages fetched. *)
Definition loop_inv (up : Upstream) (i : nat) (st : PageLoop) : Prop :=
  List.length (requests st) = i
  /\ allTrades st = fetched_trades up (requests st).

(** An upstream whose trade pages always carry a continuation cursor. *)
Definition always_cursor (up : Upstream) : Prop :=
  forall i c, exists tradeData,
    tradesPage up i c = fulfilled tradeData
    /\ Js.truthy (cursor tradeData) = true.

(** How many markets of a list have the whale flag set. *)
Fixpoint count_flagged (ms : list Market) : nat :=
  match ms with
  | [] => 0
  | m :: ms' => (if high_volume m then 1 else 0) + count_flagged ms'
  end.

(** The entry of ticker [y] after folding [ts] into a map whose entry for
    [y] is [e]; [w] classifies a trade. *)
Fixpoint entry_after (cache : JsMap.t MarketMetadata) (w : AlignedTrade -> bool)
  (y : string) (e : option Market) (ts : list Trade) : option Market :=
  match ts with
  | [] => e
  | t :: ts' =>
      entry_after cache w y
        (if String.eqb (ticker t) y
         then Some (match e with
                    | None => new_entry (align cache t) (w (align cache t))
                    | Some existingMarket =>
                        update_entry existingMarket (align cache t)
                          (w (align cache t))
                    end)
         else e)
        ts'
  end.

(** The invariant of the fold: the keys are distinct, and every entry sits
    under its own [ticker_symbol], which is a resolved ticker. *)
Definition well_keyed (cache : JsMap.t MarketMetadata) (mm : JsMap.t Market)
  : Prop :=
  NoDup (JsMap.keys mm)
  /\ forall k r, In (k, r) mm ->
       ticker_symbol r = k /\ JsMap.has cache k = true.

(** The whale flag of an entry that may not exist yet. *)
Definition flag_of (e : option Market) : bool :=
  match e with Some r => high_volume r | None => false end.

(** Whether some trade of [ts] on ticker [y] is classified as a whale. *)
Definition whale_on (cache : JsMap.t MarketMetadata) (y : string)
  (ts : list Trade) : bool :=
  existsb (fun t => String.eqb (ticker t) y
                    && isWhaleTrade (whaleThreshold cache) (align cache t)) ts.

(** The normalisation of Pass 1 (quantity times price in cents, divided by
    100) applied to a trade: the dollar amount that the specification's
    numeric semantics asks the per-trade check to use. *)
Definition dollar_notional (quantity price_cents : Q) : Q :=
  (quantity * price_cents / 100)%Q.

(** The sum of the quantities of the trades on ticker [y]: the cumulative
    volume of the specification's scenario C. *)
Definition cumulative_quantity (y : string) (ts : list Trade) : Q :=
  fold_left (fun acc t => if String.eqb (ticker t) y
                          then (acc + Js.num_or (count t) 0)%Q else acc)
    ts 0%Q.

(** ** Inputs of the scenarios *)

Definition no_details : MarketMetadata :=
  {| md_market_id := None; md_title := None; md_category_name := None;
     md_last_price := None; md_volume := None; md_volume_24h := None;
     md_previous_price := None; md_yes_ask := None; md_yes_bid := None;
     md_expiration_time := None; md_yes_sub_title := None;
     md_no_sub_title := None; md_frequency := None; md_status := None;
     md_event_ticker := None; md_open_time := None; md_close_time := None;
     md_yes_bid_dollars := None; md_no_bid_dollars := None |}.

(** Market details with a title, a volume snapshot, a 24-hour volume and
    a last price. *)
Definition details (title : string) (volume volume_24h last_price : Q)
  : MarketMetadata :=
  {| md_market_id := None; md_title := Some title; md_category_name := None;
     md_last_price := Some last_price; md_volume := Some volume;
     md_volume_24h := Some volume_24h;
     md_previous_price := None; md_yes_ask := None; md_yes_bid := None;
     md_expiration_time := None; md_yes_sub_title := None;
     md_no_sub_title := None; md_frequency := None; md_status := None;
     md_event_ticker := None; md_open_time := None; md_close_time := None;
     md_yes_bid_dollars := None; md_no_bid_dollars := None |}.

Definition a_trade (ticker : string) (count price : Q) (created_time : string)
  : Trade :=
  {| ticker := ticker; count := Some count; price := Some price;
     yes_price := None; no_price := None; taker_side := None;
     trade_id := None; created_time := created_time |}.

(** An upstream with one page of trades and no further cursor. *)
Definition one_page (ts : list Trade)
  (lookups : string -> Settled LookupResponse) : Upstream :=
  {| tradesPage := fun _ _ => fulfilled {| trades := Some ts; cursor := None |};
     marketInfo := lookups;
     now := "2025-11-02T00:00:00.000Z" |}.

(** An upstream on which every trade-page request fails. *)
Definition trades_down : Upstream :=
  {| tradesPage := fun _ _ => rejected;
     marketInfo := fun _ => rejected;
     now := "2025-11-02T00:00:00.000Z" |}.

(** An upstream whose pages hold one trade each and always name a next
    page. *)
Definition endless : Upstream :=
  {| tradesPage := fun _ _ =>
       fulfilled {| trades := Some [a_trade "KXBTC-1" 1 50 "t"];
                    cursor := Some "next" |};
     marketInfo := fun _ => rejected;
     now := "2025-11-02T00:00:00.000Z" |}.

Definition scenario_A_trade : Trade := a_trade "X" 10 60 "t1".
Definition scenario_A_details : MarketMetadata :=
  details "Bitcoin above 100k?" 5000 1000 50.

Definition scenario_A_upstream : Upstream :=
  one_page [scenario_A_trade]
    (fun k => if String.eqb k "X"
              then fulfilled (MarketResponse scenario_A_details)
              else rejected).

(** The lookup of X resolves; the lookup of W is answered with an ok
    status and a body that has neither a market nor an event, such as
    [{}]. *)
Definition lookup_without_record : Upstream :=
  one_page [scenario_A_trade; a_trade "W" 1 1 "t2"]
    (fun k => if String.eqb k "X"
              then fulfilled (MarketResponse scenario_A_details)
              else if String.eqb k "W"
              then fulfilled OtherResponse
              else rejected).

(** The markets of a settled cycle; none when it was rejected. *)
Definition markets_of (result : Settled MarketsResponse) : list Market :=
  match result with
  | fulfilled response => markets response
  | rejected => []
  end.

(** Scenario C: a whale trade (10 at 60) and a small one (1 at 60) on Y,
    whose volume snapshot is 5000. *)
Definition scenario_C_trades : list Trade :=
  [a_trade "Y" 10 60 "t1"; a_trade "Y" 1 60 "t2"].
Definition scenario_C_cache : JsMap.t MarketMetadata :=
  [("Y", details "Ethereum above 5k?" 5000 1000 50)].

(** The upstream API of the route scenario: the ticker is unknown as a
    market (404) and known as an event (200). *)
Definition event_only (url : string) : Settled (Route.Response LookupResponse) :=
  if String.eqb url (Route.events_url "KXBTC-25")
  then fulfilled {| Route.status := 200;
                    Route.json := Some (EventResponse scenario_A_details);
                    Route.text := "{}" |}
  else fulfilled {| Route.status := 404;
                    Route.json := None;
                    Route.text := "not found" |}.

(** An upstream API that answers every fetch with 304 Not Modified and
    an empty body. *)
Definition not_modified (url : string)
  : Settled (Route.Response LookupResponse) :=
  fulfilled {| Route.status := 304; Route.json := None; Route.text := "" |}.

(** ** Further notions for the paginator and the fold *)

(** The request [i] with cursor [sent] ends the pagination: it is rejected
    or its page carries no truthy cursor. *)
Definition stops (up : Upstream) (i : nat) (sent : option string) : Prop :=
  match tradesPage up i sent with
  | fulfilled tradeData => Js.truthy (cursor tradeData) = false
  | rejected => True
  end.

(** The shape of a request log: after request [i] with cursor [sent] and
    with [remaining] iterations left, [rest] are the later requests.  Each
    later request uses the cursor of the page before it; the log ends where
    the iterations run out or the last request [stops]. *)
Fixpoint chained (up : Upstream) (remaining i : nat) (sent : option string)
  (rest : list (option string)) : Prop :=
  match rest with
  | [] => remaining = 0 \/ stops up i sent
  | next :: rest' =>
      match remaining with
      | O => False
      | S remaining' =>
          exists tradeData,
            tradesPage up i sent = fulfilled tradeData
            /\ Js.truthy (cursor tradeData) = true
            /\ next = cursor tradeData
            /\ chained up remaining' (S i) next rest'
      end
  end.

(** The last trade of a sequence on ticker [y]. *)
Fixpoint last_on (y : string) (ts : list Trade) : option Trade :=
  match ts with
  | [] => None
  | t :: ts' =>
      match last_on y ts' with
      | Some t' => Some t'
      | None => if String.eqb (ticker t) y then Some t else None
      end
  end.

(** The tickers with an entry in the lookup table, among the trades. *)
Definition resolved_trades (cache : JsMap.t MarketMetadata) (ts : list Trade)
  : list Trade :=
  filter (fun t => JsMap.has cache (ticker t)) ts.

(** An upstream API that answers every fetch with 200 and the details of
    scenario A as a market. *)
Definition market_only (url : string) : Settled (Route.Response LookupResponse) :=
  fulfilled {| Route.status := 200;
               Route.json := Some (MarketResponse scenario_A_details);
               Route.text := "{}" |}.

(** Details with the quotes the sentiment score reads, and the rollup of
    one trade on them. *)
Definition quoted_details : MarketMetadata :=
  {| md_market_id := None; md_title := Some "Bitcoin above 100k?";
     md_category_name := None;
     md_last_price := Some 50%Q; md_volume := Some 5000%Q;
     md_volume_24h := Some 1000%Q;
     md_previous_price := Some 45%Q; md_yes_ask := Some 52%Q;
     md_yes_bid := Some 49%Q;
     md_expiration_time := None; md_yes_sub_title := None;
     md_no_sub_title := None; md_frequency := None; md_status := None;
     md_event_ticker := None; md_open_time := None; md_close_time := None;
     md_yes_bid_dollars := None; md_no_bid_dollars := None |}.

Definition quoted_market : Market :=
  new_entry (align [("KXBTC-25", quoted_details)]
               (a_trade "KXBTC-25" 10 60 "t1")) true.

Definition response_of (ms : list Market) : MarketsResponse :=
  {| markets := ms; markets_count := List.length ms;
     markets_timestamp := "2025-11-02T00:00:00.000Z" |}.



(** The ticker passes the two guards of the scope-restricted market route:
    it is not empty and it starts with an allowed prefix. *)
Definition route_admits (ticker : string) : bool :=
  negb (String.eqb ticker "")
  && existsb (Js.startsWith ticker) Route.ALLOWED_TICKER_PREFIXES.

(** ** The markets listing route [GET /api/kalshi/markets]
    ([app/api/kalshi/markets/route.ts]) *)

Module MarketsRoute.

Definition KALSHI_API_URL : string :=
  "https://api.elections.kalshi.com/trade-api/v2/markets".

Definition cryptoKeywords : list string :=
  ["btc"; "eth"; "crypto"; "bitcoin"; "ethereum"; "sol"; "bch"].

(** [`${KALSHI_API_URL}?status=${status}&limit=${limit}`] with the
    defaults of [params.get(...) || ...]. *)
Definition listing_url (status limit : option string) : string :=
  KALSHI_API_URL ++ "?status=" ++ Js.str_or status "open"
  ++ "&limit=" ++ Js.str_or limit "1000".

Section Handler.
(** [M]: the market objects of the upstream body; [D]: its other
    properties, passed through by [...data]. *)
Variables M D : Type.
Variable ticker_symbol_of : M -> option string.
Variable title_of : M -> option string.

(** The upstream body: [data.markets] may be missing. *)
Record Data : Type := {
  data_markets : option (list M);
  data_other : D
}.

(** The body of an ok answer: [{...data, markets, count}]. *)
Record Listing : Type := {
  listing_other : D;
  listing_markets : list M;
  listing_count : nat
}.

Variable upstream : string -> Settled (Route.Response Data).

(** [x?.toLowerCase() || ''] on an optional string. *)
Definition lowered (x : option string) : string :=
  match x with
  | Some s => Js.str_or (Some (Js.toLowerCase s)) ""
  | None => ""
  end.

(** The predicate of [data.markets.filter(...)]. *)
Definition is_crypto_market (market : M) : bool :=
  let ticker := lowered (ticker_symbol_of market) in
  let title := lowered (title_of market) in
  existsb (fun keyword => Js.includes ticker keyword || Js.includes title keyword)
    cryptoKeywords.

Definition throw (A : Type) : Route.Handler A :=
  fun log => (rejected, log).

Definition GET (status limit : option string)
  : Route.Handler (Route.NextResponse Listing) :=
  Route.try_catch
    (Route.bind (Route.fetch upstream (listing_url status limit))
       (fun apiResponse =>
          if negb (Route.ok (Route.status apiResponse))
          then Route.respond (Route.status apiResponse)
                 (Route.Failure "Failed to fetch from Kalshi API"
                    (Some (Route.text apiResponse)))
          else
            Route.bind (Route.json_of apiResponse)
              (fun data =>
                 match data_markets data with
                 | None => throw _
                 | Some markets =>
                     let filteredMarkets := filter is_crypto_market markets in
                     Route.respond 200
                       (Route.Data
                          {| listing_other := data_other data;
                             listing_markets := filteredMarkets;
                             listing_count := List.length filteredMarkets |})
                 end)))
    (Route.respond 500 (Route.Failure "Internal Server Error" None)).

End Handler.

End MarketsRoute.

(** ** The trades route [GET /api/kalshi/trades]
    ([app/api/kalshi/trades/route.ts]) *)

Module TradesRoute.

Definition KALSHI_API_URL : string :=
  "https://api.elections.kalshi.com/trade-api/v2/markets/trades".

(** [`${KALSHI_API_URL}?limit=${limit}`], followed by
    [`&cursor=${cursor}`] when the cursor is truthy. *)
Definition kalshiUrl (limit cursor : option string) : string :=
  KALSHI_API_URL ++ "?limit=" ++ Js.str_or limit "100"
  ++ (if Js.truthy cursor
      then "&cursor=" ++ Js.str_or cursor ""
      else "").

Section Handler.
Variable J : Type.
Variable upstream : string -> Settled (Route.Response J).

(** [method] is [request.method]; [limit] and [cursor] are what
    [params.get] returns.  The answer to OPTIONS is
    [new NextResponse(null, { status: 200 })], whose body is [null]; the
    other answers are built by [NextResponse.json]. *)
Definition GET (method : string) (limit cursor : option string)
  : Route.Handler (Route.NextResponse (option J)) :=
  if String.eqb method "OPTIONS"
  then Route.ret {| Route.nr_status := 200; Route.nr_body := Route.Data None |}
  else
    Route.try_catch
      (Route.bind (Route.fetch upstream (kalshiUrl limit cursor))
         (fun apiResponse =>
            if negb (Route.ok (Route.status apiResponse))
            then Route.respond (Route.status apiResponse)
                   (Route.Failure "Failed to fetch trades from Kalshi API"
                      (Some (Route.text apiResponse)))
            else
              Route.bind (Route.json_of apiResponse)
                (fun data => Route.respond 200 (Route.Data (Some data)))))
      (Route.respond 500 (Route.Failure "Internal Server Error" None)).

End Handler.

End TradesRoute.

(** ** Paging of the markets tab ([MarketTab], the [useMemo] and the
    page handlers) *)

Module MarketTab.

Definition ITEMS_PER_PAGE : Z := 8.

(** [Array.prototype.slice(start, end)] for integer bounds: a negative
    bound counts from the end, and both are clamped to the array. *)
Definition slice (A : Type) (l : list A) (start finish : Z) : list A :=
  let len := Z.of_nat (List.length l) in
  let k := if (start <? 0)%Z then Z.max (len + start) 0 else Z.min start len in
  let final :=
    if (finish <? 0)%Z then Z.max (len + finish) 0 else Z.min finish len in
  firstn (Z.to_nat (final - k)) (skipn (Z.to_nat k) l).

(** [Math.ceil(total / ITEMS_PER_PAGE)]. *)
Definition totalPages (A : Type) (filteredMarkets : list A) : Z :=
  let total := Z.of_nat (List.length filteredMarkets) in
  (- ((- total) / ITEMS_PER_PAGE))%Z.

Definition paginatedMarkets (A : Type) (filteredMarkets : list A)
  (currentPage : Z) : list A :=
  let startIndex := ((currentPage - 1) * ITEMS_PER_PAGE)%Z in
  let endIndex := (startIndex + ITEMS_PER_PAGE)%Z in
  slice filteredMarkets startIndex endIndex.

(** [setCurrentPage((prev) => Math.min(prev + 1, totalPages))]. *)
Definition handleNextPage (A : Type) (filteredMarkets : list A) (prev : Z)
  : Z :=
  Z.min (prev + 1) (totalPages filteredMarkets).

(** [setCurrentPage((prev) => Math.max(prev - 1, 1))]. *)
Definition handlePreviousPage (prev : Z) : Z := Z.max (prev - 1) 1.

(** The page numbers 1 .. [n]. *)
Definition pages (n : Z) : list Z :=
  map (fun i => Z.of_nat (S i)) (seq 0 (Z.to_nat n)).

End MarketTab.

(** ** [formatRelativeTime] ([lib/utils.ts]) *)

Module Utils.

(** A number of milliseconds, or NaN ([None]): the [getTime()] of an
    invalid date. *)
Definition Millis : Type := option Z.

(** Template-literal rendering of an integer or NaN. *)
Definition render (n : option Z) : string :=
  match n with
  | Some z => DecimalString.NilZero.string_of_int (Z.to_int z)
  | None => "NaN"
  end.

(** [Math.floor(a / d)]. *)
Definition floor_div (a : option Z) (d : Z) : option Z :=
  match a with
  | Some z => Some (z / d)%Z
  | None => None
  end.

(** [a < b]; false when [a] is NaN. *)
Definition lt (a : option Z) (b : Z) : bool :=
  match a with
  | Some z => (z <? b)%Z
  | None => false
  end.

(** [now] is [new Date().getTime()], [past] is [new Date(date).getTime()]. *)
Definition formatRelativeTime (now : Z) (past : Millis) : string :=
  let diffMs := match past with Some p => Some (now - p)%Z | None => None end in
  let diffSec := floor_div diffMs 1000 in
  let diffMin := floor_div diffSec 60 in
  let diffHour := floor_div diffMin 60 in
  let diffDay := floor_div diffHour 24 in
  if lt diffSec 60 then render diffSec ++ "s ago"
  else if lt diffMin 60 then render diffMin ++ "m ago"
  else if lt diffHour 24 then render diffHour ++ "h ago"
  else render diffDay ++ "d ago".

End Utils.

(** ** The sentiment score ([SentimentTab], the [useMemo]) *)

Module Sentiment.

(** A computed number: a rational or NaN ([None]).  A property that is
    undefined becomes NaN when it enters the arithmetic. *)
Definition Num : Type := option Q.

Definition lift2 (f : Q -> Q -> Q) (a b : Num) : Num :=
  match a, b with
  | Some x, Some y => Some (f x y)
  | _, _ => None
  end.

Definition add : Num -> Num -> Num := lift2 Qplus.
Definition sub : Num -> Num -> Num := lift2 Qminus.
Definition mul : Num -> Num -> Num := lift2 Qmult.

(** Division by a number that is not 0 (a count of at least one, or the
    positive maximum volume). *)
Definition div : Num -> Num -> Num := lift2 Qdiv.

(** [Math.max] and [Math.min]: NaN when an argument is NaN. *)
Definition max : Num -> Num -> Num :=
  lift2 (fun x y => if Qle_bool x y then y else x).
Definition min : Num -> Num -> Num :=
  lift2 (fun x y => if Qle_bool x y then x else y).

(** [a <= b] and [a > b]: false when [a] is NaN. *)
Definition le (a : Num) (b : Q) : bool :=
  match a with Some x => Qle_bool x b | None => false end.
Definition gt (a : Num) (b : Q) : bool :=
  match a with Some x => Js.gt x b | None => false end.

Definition num (q : Q) : Num := Some q.

(** The first [forEach]: the largest [volume_24h]. *)
Definition maxVolume24h (markets : list Market) : Q :=
  fold_left (fun maxVolume24h market =>
               if gt (volume_24h market) maxVolume24h
               then match volume_24h market with
                    | Some v => v
                    | None => maxVolume24h
                    end
               else maxVolume24h)
    markets 0%Q.

Record Totals : Type := {
  totalMomentumScore : Num;
  totalSpreadScore : Num;
  totalVolumeScore : Num
}.

Definition momentumScore_of (market : Market) : Num :=
  let priceDelta := sub (last_price market) (previous_price market) in
  let clampedDelta := max (num (-25)) (min (num 25) priceDelta) in
  mul (add clampedDelta (num 25)) (num 2).

Definition spreadScore_of (market : Market) : Num :=
  let spread := sub (yes_ask market) (yes_bid market) in
  let clampedSpread := max (num 0) (min (num 20) spread) in
  sub (num 100) (mul clampedSpread (num 5)).

Definition volumeScore_of (maxVolume24h : Q) (market : Market) : Num :=
  mul (div (volume_24h market) (num maxVolume24h)) (num 100).

(** One iteration of the second [forEach]. *)
Definition score_step (maxVolume24h : Q) (acc : Totals) (market : Market)
  : Totals :=
  {| totalMomentumScore := add (totalMomentumScore acc) (momentumScore_of market);
     totalSpreadScore := add (totalSpreadScore acc) (spreadScore_of market);
     totalVolumeScore :=
       if Js.gt maxVolume24h 0
       then add (totalVolumeScore acc) (volumeScore_of maxVolume24h market)
       else totalVolumeScore acc |}.

Record SentimentData : Type := {
  finalScore : Num;
  sentimentText : string;
  momentumScore : Num;
  spreadScore : Num;
  volumeScore : Num
}.

Definition text_of (finalScore : Num) : string :=
  if le finalScore 24 then "Extreme Fear"
  else if le finalScore 49 then "Fear"
  else if le finalScore 74 then "Greed"
  else "Extreme Greed".

Definition neutral : SentimentData :=
  {| finalScore := num 50; sentimentText := "Neutral";
     momentumScore := num 50; spreadScore := num 50;
     volumeScore := num 50 |}.

Definition sentimentData (marketsData : option MarketsResponse)
  : SentimentData :=
  match marketsData with
  | None => neutral
  | Some response =>
      match markets response with
      | [] => neutral
      | markets =>
          let maxVolume24h := maxVolume24h markets in
          let totals :=
            fold_left (score_step maxVolume24h) markets
              {| totalMomentumScore := num 0; totalSpreadScore := num 0;
                 totalVolumeScore := num 0 |} in
          let marketCount := num (inject_Z (Z.of_nat (List.length markets))) in
          let avgMomentum := div (totalMomentumScore totals) marketCount in
          let avgSpread := div (totalSpreadScore totals) marketCount in
          let avgVolume :=
            if Js.gt maxVolume24h 0
            then div (totalVolumeScore totals) marketCount
            else num 50 in
          let finalScore :=
            add (add (mul avgMomentum (num 0.4)) (mul avgSpread (num 0.4)))
              (mul avgVolume (num 0.2)) in
          {| finalScore := finalScore;
             sentimentText := text_of finalScore;
             momentumScore := avgMomentum;
             spreadScore := avgSpread;
             volumeScore := avgVolume |}
      end
  end.

(** The markets of a list all carry the numbers the score reads, with a
    24-hour volume that is not negative. *)
Definition complete (market : Market) : Prop :=
  (exists l p, last_price market = Some l /\ previous_price market = Some p)
  /\ (exists a b, yes_ask market = Some a /\ yes_bid market = Some b)
  /\ (exists v, volume_24h market = Some v /\ (0 <= v)%Q).

Definition in_range (x : Num) : Prop :=
  exists q, x = Some q /\ (0 <= q)%Q /\ (q <= 100)%Q.

(** A total of [n] scores, each between 0 and 100. *)
Definition total_of (n : nat) (x : Num) : Prop :=
  exists q, x = Some q /\ (0 <= q)%Q
            /\ (q <= 100 * inject_Z (Z.of_nat n))%Q.

Definition bounded (n : nat) (acc : Totals) : Prop :=
  total_of n (totalMomentumScore acc)
  /\ total_of n (totalSpreadScore acc)
  /\ total_of n (totalVolumeScore acc).

End Sentiment.

(** ** The metrics of the sidebar ([Sidebar], [metrics]) *)

Module Sidebar.




End Sidebar.

(** ** The analysis route [POST /api/analysis] *)

Module AnalysisRoute.
Section Handler.
(** [A]: what [getAIAnalysis] returns. *)
Variable A : Type.

(** [getAIAnalysis(market, key)] of [lib/llmService]; [rejected] when it
    throws. *)
Variable getAIAnalysis : Market -> string -> Settled A.

End Handler.
End AnalysisRoute.

(** * Properties *)

(** ** Facts about [JsMap] *)

Module JsMapFacts.
Section Facts.
Variable V : Type.
Implicit Types (m : JsMap.t V) (k : string) (v : V).

Lemma get_set_same m k v : JsMap.get (JsMap.set m k v) k = Some v.
Proof.
  induction m as [|[k' v'] m IH]; simpl.
  - now rewrite String.eqb_refl.
  - destruct (String.eqb k' k) eqn:E; simpl; rewrite E; auto.
Qed.

Lemma get_set_other m k k' v :
  k <> k' -> JsMap.get (JsMap.set m k v) k' = JsMap.get m k'.
Proof.
  intros Hne.
  induction m as [|[k0 v0] m IH]; simpl.
  - destruct (String.eqb_spec k k'); congruence.
  - destruct (String.eqb_spec k0 k) as [->|Hk]; simpl.
    + destruct (String.eqb_spec k k'); congruence.
    + now rewrite IH.
Qed.

Lemma has_true_iff m k : JsMap.has m k = true <-> In k (JsMap.keys m).
Proof.
  unfold JsMap.has.
  induction m as [|[k' v'] m IH]; simpl.
  - split; [discriminate | tauto].
  - destruct (String.eqb_spec k' k) as [->|Hk].
    + split; auto.
    + rewrite IH. split; [auto | intros [?|?]; congruence].
Qed.

Lemma has_false_iff m k : JsMap.has m k = false <-> ~ In k (JsMap.keys m).
Proof.
  rewrite <- has_true_iff. destruct (JsMap.has m k); split; congruence.
Qed.

Lemma has_get m k :
  JsMap.has m k = true <-> exists v, JsMap.get m k = Some v.
Proof.
  unfold JsMap.has. destruct (JsMap.get m k) as [v|].
  - split; eauto.
  - split; [discriminate | intros [v Hv]; discriminate].
Qed.

Lemma get_None_has m k : JsMap.get m k = None <-> JsMap.has m k = false.
Proof.
  unfold JsMap.has. destruct (JsMap.get m k); split; congruence.
Qed.

Lemma keys_set m k v :
  JsMap.keys (JsMap.set m k v)
  = if JsMap.has m k then JsMap.keys m else JsMap.keys m ++ [k].
Proof.
  unfold JsMap.has.
  induction m as [|[k' v'] m IH]; simpl; auto.
  destruct (String.eqb k' k) eqn:E; simpl; auto.
  rewrite IH. now destruct (JsMap.get m k).
Qed.

Lemma size_set m k v :
  JsMap.size (JsMap.set m k v)
  = if JsMap.has m k then JsMap.size m else S (JsMap.size m).
Proof.
  unfold JsMap.size.
  rewrite <- (length_map fst (JsMap.set m k v)), <- (length_map fst m).
  change (map fst (JsMap.set m k v)) with (JsMap.keys (JsMap.set m k v)).
  rewrite keys_set. destruct (JsMap.has m k); auto.
  rewrite length_app; simpl. fold (JsMap.keys m). lia.
Qed.

Lemma NoDup_keys_set m k v :
  NoDup (JsMap.keys m) -> NoDup (JsMap.keys (JsMap.set m k v)).
Proof.
  intros Hnd. rewrite keys_set.
  destruct (JsMap.has m k) eqn:E; auto.
  apply has_false_iff in E.
  apply NoDup_app; auto.
  - repeat constructor; simpl; tauto.
  - intros x Hx [<-|[]]. contradiction.
Qed.

Lemma In_set m k v k' v' :
  In (k', v') (JsMap.set m k v) -> (k' = k /\ v' = v) \/ In (k', v') m.
Proof.
  induction m as [|[k0 v0] m IH]; simpl.
  - intros [H|[]]; inversion H; auto.
  - destruct (String.eqb_spec k0 k) as [->|Hk]; simpl.
    + intros [H|H]; [inversion H; auto | auto].
    + intros [H|H]; auto. destruct (IH H); auto.
Qed.

Lemma In_get m k v :
  NoDup (JsMap.keys m) -> In (k, v) m -> JsMap.get m k = Some v.
Proof.
  induction m as [|[k0 v0] m IH]; simpl; [tauto|].
  intros Hnd [H|H].
  - inversion H; subst. now rewrite String.eqb_refl.
  - inversion Hnd as [|? ? Hnotin Hnd']; subst.
    destruct (String.eqb_spec k0 k) as [->|Hk]; auto.
    exfalso. apply Hnotin. change (In (fst (k, v)) (map fst m)).
    now apply in_map.
Qed.

Lemma get_In m k v : JsMap.get m k = Some v -> In (k, v) m.
Proof.
  induction m as [|[k0 v0] m IH]; simpl; [discriminate|].
  destruct (String.eqb_spec k0 k) as [->|Hk]; intros H.
  - inversion H; auto.
  - auto.
Qed.
End Facts.
End JsMapFacts.

(** ** Trade Paginator *)

Section Paginator.
Variable up : Upstream.

Lemma combine_snoc (A B : Type) (l1 : list A) (l2 : list B) a b :
  List.length l1 = List.length l2 ->
  combine (l1 ++ [a]) (l2 ++ [b]) = combine l1 l2 ++ [(a, b)].
Proof.
  revert l2. induction l1 as [|x l1 IH]; intros [|y l2] Hlen;
    simpl in *; try discriminate; auto.
  f_equal. apply IH. lia.
Qed.

Lemma numbered_snoc log c :
  numbered (log ++ [c]) = numbered log ++ [(List.length log, c)].
Proof.
  unfold numbered. rewrite length_app. simpl.
  rewrite Nat.add_1_r, seq_S. simpl.
  apply combine_snoc. now rewrite length_seq.
Qed.

Lemma fetched_trades_snoc log c :
  fetched_trades up (log ++ [c])
  = fetched_trades up log
    ++ page_trades (tradesPage up (List.length log) c).
Proof.
  unfold fetched_trades. rewrite numbered_snoc, flat_map_app. simpl.
  now rewrite app_nil_r.
Qed.

Lemma pagination_loop_inv remaining : forall i st,
  loop_inv up i st ->
  let r := pagination_loop up remaining i st in
  List.length (requests r) <= i + remaining
  /\ allTrades r = fetched_trades up (requests r).
Proof.
  induction remaining as [|n IH]; intros i st [Hlen Hacc]; simpl.
  - split; [lia | assumption].
  - set (sent := if Js.truthy (currentCursor st)
                 then currentCursor st else None).
    destruct (tradesPage up i sent) as [tradeData|] eqn:Hpage.
    + assert (Hstep :
        (match trades tradeData with
         | Some ts => allTrades st ++ ts
         | None => allTrades st
         end) = fetched_trades up (requests st ++ [sent])).
      { rewrite fetched_trades_snoc, Hlen, Hpage, Hacc. simpl.
        destruct (trades tradeData); auto using app_nil_r. }
      destruct (Js.truthy (cursor tradeData)).
      * specialize (IH (S i)
          {| allTrades := match trades tradeData with
                          | Some ts => allTrades st ++ ts
                          | None => allTrades st
                          end;
             currentCursor := cursor tradeData;
             requests := requests st ++ [sent] |}).
        simpl in IH. destruct IH as [IH1 IH2].
        { split; simpl; [rewrite length_app; simpl; lia | exact Hstep]. }
        split; [lia | exact IH2].
      * simpl. split; [rewrite length_app; simpl; lia | exact Hstep].
    + simpl. split; [rewrite length_app; simpl; lia|].
      rewrite fetched_trades_snoc, Hlen, Hpage. simpl.
      now rewrite app_nil_r.
Qed.

(** With an upstream that always names a next page every iteration
    runs. *)
Lemma pagination_loop_exhausts remaining : forall i st,
  always_cursor up ->
  List.length (requests (pagination_loop up remaining i st))
  = List.length (requests st) + remaining.
Proof.
  induction remaining as [|n IH]; intros i st Hup; simpl; [lia|].
  set (sent := if Js.truthy (currentCursor st)
               then currentCursor st else None).
  destruct (Hup i sent) as [tradeData [-> ->]].
  rewrite IH by assumption. simpl. rewrite length_app. simpl. lia.
Qed.
End Paginator.

(** C9.  Whatever the upstream answers, the paginator issues at most
    [MAX_PAGES_TO_FETCH] = 5 page requests and returns the trades of the pages
    it fetched, in fetch order; with an upstream whose responses always carry
    a continuation cursor it issues exactly 5. *)
Theorem paginate_bounded (up : Upstream) :
  MAX_PAGES_TO_FETCH = 5
  /\ List.length (requests (paginate up)) <= MAX_PAGES_TO_FETCH
  /\ allTrades (paginate up) = fetched_trades up (requests (paginate up))
  /\ (always_cursor up ->
      List.length (requests (paginate up)) = MAX_PAGES_TO_FETCH).
Proof.
  split; [reflexivity|].
  destruct (@pagination_loop_inv up MAX_PAGES_TO_FETCH 0
              {| allTrades := []; currentCursor := None; requests := [] |})
    as [Hle Hacc].
  { split; reflexivity. }
  split; [exact Hle|]. split; [exact Hacc|].
  intros Hup. unfold paginate.
  now rewrite pagination_loop_exhausts.
Qed.

(** The endless upstream: five requests, five trades. *)
Example paginate_endless :
  always_cursor endless
  /\ List.length (requests (paginate endless)) = 5
  /\ List.length (allTrades (paginate endless)) = 5.
Proof.
  split; [|split; reflexivity].
  intros i c. eexists. split; reflexivity.
Qed.

(** ** A failing first page *)

Lemma paginate_first_page_rejected (up : Upstream) :
  tradesPage up 0 None = rejected ->
  allTrades (paginate up) = [] /\ requests (paginate up) = [None].
Proof.
  intros Hfail. unfold paginate. simpl. rewrite Hfail. auto.
Qed.

(** C5, as the code has it.  When the very first trade-page fetch fails the
    [catch] of the pagination loop swallows the error: the cycle goes on
    with no trades and returns a successful response whose market list is
    empty and whose count is 0; the query is not in an error state. *)
Theorem first_page_failure_yields_empty_success (up : Upstream) :
  tradesPage up 0 None = rejected ->
  queryFn up = fulfilled {| markets := [];
                            markets_count := 0;
                            markets_timestamp := now up |}
  /\ isError (useAlignedMarkets up) = false.
Proof.
  intros Hfail.
  assert (Hq : queryFn up = fulfilled {| markets := [];
                                         markets_count := 0;
                                         markets_timestamp := now up |}).
  { unfold queryFn.
    destruct (paginate_first_page_rejected up Hfail) as [-> _].
    reflexivity. }
  split; [exact Hq|].
  unfold useAlignedMarkets. now rewrite Hq.
Qed.

Lemma first_page_failure_yields_empty_success_witness :
  tradesPage trades_down 0 None = rejected
  /\ queryFn trades_down
     = fulfilled {| markets := [];
                    markets_count := 0;
                    markets_timestamp := now trades_down |}.
Proof.
  split; [reflexivity|].
  apply (first_page_failure_yields_empty_success trades_down).
  reflexivity.
Defined.

(** C5 as stated fails: on [trades_down] the first page request is
    rejected, yet the cycle does not end in an error; it returns an empty
    success. *)
Lemma first_page_failure_is_not_an_error :
  tradesPage trades_down 0 None = rejected
  /\ queryFn trades_down <> rejected
  /\ (exists response,
        queryFn trades_down = fulfilled response
        /\ markets response = [] /\ markets_count response = 0)
  /\ isError (useAlignedMarkets trades_down) = false.
Proof.
  split; [reflexivity|]. split; [discriminate|].
  split; [|reflexivity].
  eexists. split; [reflexivity|]. split; reflexivity.
Qed.

(** ** Whale alerts view *)

Lemma length_filter_high_volume (ms : list Market) :
  List.length (filter high_volume ms) = count_flagged ms.
Proof.
  induction ms as [|m ms IH]; simpl; auto.
  destruct (high_volume m); simpl; auto.
Qed.

(** C10.  For every markets-view result the fields [count],
    [whale_signals_count] and [high_volume_count] of the whale-alerts
    response are equal to each other, to the length of [alerts], and to the
    number of markets of the view whose [high_volume] flag is true; without a
    markets view (no data yet) they are all 0. *)
Theorem whale_alert_counts_agree (response : MarketsResponse) (now : string) :
  let d := WhaleAlerts.data (WhaleAlerts.useWhaleAlerts (Some response) now) in
  WhaleAlerts.count d = count_flagged (markets response)
  /\ WhaleAlerts.whale_signals_count d = count_flagged (markets response)
  /\ WhaleAlerts.high_volume_count d = count_flagged (markets response)
  /\ List.length (WhaleAlerts.alerts d) = count_flagged (markets response)
  /\ (let d0 := WhaleAlerts.data (WhaleAlerts.useWhaleAlerts None now) in
      WhaleAlerts.alerts d0 = []
      /\ WhaleAlerts.count d0 = 0
      /\ WhaleAlerts.whale_signals_count d0 = 0
      /\ WhaleAlerts.high_volume_count d0 = 0).
Proof.
  simpl. unfold WhaleAlerts.whaleAlerts.
  rewrite length_map, length_filter_high_volume.
  repeat split; reflexivity.
Qed.

(** ** Pass 1: the whale threshold *)

Lemma gt_true_iff (a b : Q) : Js.gt a b = true <-> (b < a)%Q.
Proof.
  unfold Js.gt. rewrite negb_true_iff, <- not_true_iff_false, Qle_bool_iff.
  split; [apply Qnot_le_lt | apply Qlt_not_le].
Qed.

Lemma gt_false_iff (a b : Q) : Js.gt a b = false <-> (a <= b)%Q.
Proof.
  unfold Js.gt. rewrite negb_false_iff. apply Qle_bool_iff.
Qed.

Lemma max_step_monotone (a a' : Q) (m m' : MarketMetadata) :
  (a <= a')%Q ->
  (marketNotionalVolume24h m <= marketNotionalVolume24h m')%Q ->
  (max_step a m <= max_step a' m')%Q.
Proof.
  intros Ha Hm. unfold max_step.
  destruct (Js.gt (marketNotionalVolume24h m) a) eqn:E1;
    destruct (Js.gt (marketNotionalVolume24h m') a') eqn:E2;
    try apply gt_true_iff in E1; try apply gt_true_iff in E2;
    try apply gt_false_iff in E1; try apply gt_false_iff in E2; lra.
Qed.

Lemma fold_max_step_monotone (l l' : list MarketMetadata) :
  Forall2 (fun m m' =>
             (marketNotionalVolume24h m <= marketNotionalVolume24h m')%Q) l l' ->
  forall a a', (a <= a')%Q ->
  (fold_left max_step l a <= fold_left max_step l' a')%Q.
Proof.
  induction 1 as [|m m' l l' Hm _ IH]; intros a a' Ha; simpl; auto.
  apply IH. now apply max_step_monotone.
Qed.

Lemma values_set_Forall2 (R : MarketMetadata -> MarketMetadata -> Prop)
  (cache : JsMap.t MarketMetadata) k m m' :
  (forall x, R x x) ->
  JsMap.get cache k = Some m -> R m m' ->
  Forall2 R (JsMap.values cache) (JsMap.values (JsMap.set cache k m')).
Proof.
  intros Hrefl Hget HR.
  induction cache as [|[k0 v0] cache IH]; simpl in *; [discriminate|].
  destruct (String.eqb k0 k); simpl.
  - inversion Hget; subst. constructor; auto.
    clear - Hrefl. induction cache; simpl; constructor; auto.
  - constructor; auto.
Qed.

(** C6.  Replacing the details of one resolved market by details with a
    24-hour notional volume at least as large, all other markets unchanged,
    does not decrease the whale threshold. *)
Theorem whaleThreshold_monotone (cache : JsMap.t MarketMetadata)
  (k : string) (m m' : MarketMetadata) :
  JsMap.get cache k = Some m ->
  (marketNotionalVolume24h m <= marketNotionalVolume24h m')%Q ->
  (whaleThreshold cache <= whaleThreshold (JsMap.set cache k m'))%Q.
Proof.
  intros Hget Hle. unfold whaleThreshold, maxNotionalVolume.
  assert (H : (fold_left max_step (JsMap.values cache) 0
               <= fold_left max_step (JsMap.values (JsMap.set cache k m')) 0)%Q).
  { apply fold_max_step_monotone; [|apply Qle_refl].
    eapply values_set_Forall2; eauto. intros x. apply Qle_refl. }
  lra.
Qed.

Lemma whaleThreshold_monotone_witness :
  (whaleThreshold [("X", details "Bitcoin" 0 1000 50);
                   ("Y", details "Ether" 0 100 50)]
   <= whaleThreshold
        (JsMap.set [("X", details "Bitcoin" 0 1000 50);
                    ("Y", details "Ether" 0 100 50)]
           "Y" (details "Ether" 0 4000 50)))%Q.
Proof.
  apply (@whaleThreshold_monotone _ "Y" (details "Ether" 0 100 50)).
  - reflexivity.
  - vm_compute. discriminate.
Defined.

(** ** Scenario A: one whale trade *)

(** C1.  With the single trade [{ticker: "X", count: 10, price: 60}] and
    details for X with [volume_24h = 1000] and [last_price = 50], the cycle
    finds the maximum 24-hour notional 500 and the threshold 62.5; the
    trade's notional 600 exceeds it strictly, the trade is classified as a
    whale trade, and the one rollup of the fold, the rollup for X, has
    [high_volume = true]; the response of the cycle holds that rollup when it
    passes the output filters and nothing else. *)
Theorem whale_trade_flags_rollup (up : Upstream) (t : Trade) (md : MarketMetadata) :
  ticker t = "X" -> count t = Some 10%Q -> price t = Some 60%Q ->
  md_volume_24h md = Some 1000%Q -> md_last_price md = Some 50%Q ->
  tradesPage up 0 None = fulfilled {| trades := Some [t]; cursor := None |} ->
  marketInfo up "X" = fulfilled (MarketResponse md) ->
  let ts := allTrades (paginate up) in
  let table := [("X", Some md)] in
  let cache := records_of table in
  ts = [t]
  /\ marketInfoCache (marketTickers ts) (marketInfoResults up (marketTickers ts))
     = returns table
  /\ has_undefined table = false
  /\ cache = [("X", md)]
  /\ (maxNotionalVolume cache == 500)%Q
  /\ (whaleThreshold cache == 62.5)%Q
  /\ (tradeNotionalValue (align cache t) == 600)%Q
  /\ (whaleThreshold cache < tradeNotionalValue (align cache t))%Q
  /\ isWhaleTrade (whaleThreshold cache) (align cache t) = true
  /\ exists rollup,
       marketsMap cache ts = [("X", rollup)]
       /\ ticker_symbol rollup = "X"
       /\ high_volume rollup = true
       /\ queryFn up
          = fulfilled {| markets := filteredCryptoMarkets [rollup];
                         markets_count :=
                           List.length (filteredCryptoMarkets [rollup]);
                         markets_timestamp := now up |}
       /\ forall r, In r (filteredCryptoMarkets [rollup]) -> r = rollup.
Proof.
  intros Hticker Hcount Hprice Hvol Hlast Hpage Hinfo ts table cache.
  assert (Hts : ts = [t]).
  { subst ts. unfold paginate. simpl. now rewrite Hpage. }
  assert (Htable : marketInfoCache (marketTickers ts)
                     (marketInfoResults up (marketTickers ts))
                   = returns table).
  { rewrite Hts. unfold marketTickers, marketInfoResults, marketInfoCache.
    simpl. rewrite Hticker. unfold cache_step. simpl. now rewrite Hinfo. }
  assert (Hdef : has_undefined table = false) by reflexivity.
  assert (Hcache : cache = [("X", md)]) by reflexivity.
  assert (Hmax : (maxNotionalVolume cache == 500)%Q).
  { rewrite Hcache.
    unfold maxNotionalVolume, max_step, marketNotionalVolume24h. simpl.
    rewrite Hvol, Hlast. reflexivity. }
  assert (Hthr : (whaleThreshold cache == 62.5)%Q).
  { unfold whaleThreshold. rewrite Hmax. reflexivity. }
  assert (Hnot : (tradeNotionalValue (align cache t) == 600)%Q).
  { unfold tradeNotionalValue. simpl. rewrite Hcount, Hprice. reflexivity. }
  assert (Hlt : (whaleThreshold cache < tradeNotionalValue (align cache t))%Q).
  { rewrite Hthr, Hnot. reflexivity. }
  assert (Hwhale : isWhaleTrade (whaleThreshold cache) (align cache t) = true).
  { apply gt_true_iff, Hlt. }
  repeat (split; [assumption|]).
  exists (new_entry (align cache t) true).
  assert (Hmap : marketsMap cache ts
                 = [("X", new_entry (align cache t) true)]).
  { unfold marketsMap. rewrite Hts. simpl. unfold fold_trade.
    rewrite Hwhale. simpl. rewrite Hticker, Hcache. reflexivity. }
  split; [exact Hmap|]. split; [exact Hticker|]. split; [reflexivity|].
  split.
  - unfold queryFn. fold ts. rewrite Htable, Hdef.
    fold cache. now rewrite Hmap.
  - intros r Hr. unfold filteredCryptoMarkets in Hr.
    apply filter_In in Hr. destruct Hr as [Hr _].
    apply filter_In in Hr. destruct Hr as [[Hr|[]] _]. now symmetry.
Qed.

Lemma whale_trade_flags_rollup_witness :
  exists rollup,
    marketsMap [("X", scenario_A_details)] [scenario_A_trade] = [("X", rollup)]
    /\ high_volume rollup = true.
Proof.
  destruct (@whale_trade_flags_rollup scenario_A_upstream scenario_A_trade scenario_A_details)
    as (Hts & _ & _ & Hcache & _ & _ & _ & _ & _ & rollup & Hmap & _ & Hflag & _);
    try reflexivity.
  exists rollup. split; [|exact Hflag].
  rewrite Hcache, Hts in Hmap. exact Hmap.
Defined.

(** ** Units of the two sides of the whale check *)

(** The market side of the comparison is the dollar amount. *)
Lemma marketNotionalVolume24h_dollars (market : MarketMetadata) :
  (marketNotionalVolume24h market
   == dollar_notional (Js.num_or (md_volume_24h market) 0)
        (Js.num_or (md_last_price market) 0))%Q.
Proof. reflexivity. Qed.

(** The trade side is a hundred times the dollar amount. *)
Lemma tradeNotionalValue_cents (a : AlignedTrade) :
  (tradeNotionalValue a
   == 100 * dollar_notional (Js.num_or (count (trade a)) 0)
              (Js.num_or (price (trade a)) 0))%Q.
Proof. unfold tradeNotionalValue, dollar_notional. field. Qed.

(** C2, at the trade of scenario A.  The threshold is derived from
    amounts divided by 100 (62.5, from 1000 * 50 / 100), the trade's value
    is not divided: the code compares 600 with 62.5 and flags the trade,
    where the amount normalised like the market side, 6, stays below the
    threshold. *)
Theorem trade_notional_not_normalised :
  let cache := [("X", scenario_A_details)] in
  let a := align cache scenario_A_trade in
  (marketNotionalVolume24h scenario_A_details == dollar_notional 1000 50)%Q
  /\ (whaleThreshold cache == 62.5)%Q
  /\ (tradeNotionalValue a == 600)%Q
  /\ (dollar_notional 10 60 == 6)%Q
  /\ ~ (tradeNotionalValue a == dollar_notional 10 60)%Q
  /\ isWhaleTrade (whaleThreshold cache) a = true
  /\ Js.gt (dollar_notional 10 60) (whaleThreshold cache) = false.
Proof.
  simpl. repeat split; try reflexivity.
  intros H. vm_compute in H. discriminate.
Qed.

(** ** Market Resolver *)

Lemma In_values (V : Type) (m : JsMap.t V) (v : V) :
  In v (JsMap.values m) -> exists k, In (k, v) m.
Proof.
  unfold JsMap.values. rewrite in_map_iff.
  intros [[k v'] [Heq Hin]]. simpl in Heq. subst. eauto.
Qed.

Section Resolver.
Variable up : Upstream.

(** The [forEach] throws exactly at a fulfilled lookup whose body is
    null. *)
Lemma forEach_throws_iff (ks : list string) : forall c0,
  forEach (combine ks (marketInfoResults up ks)) c0 = throws
  <-> exists k, In k ks /\ marketInfo up k = fulfilled NullResponse.
Proof.
  induction ks as [|k0 ks IH]; intros c0; simpl.
  - split; [discriminate | intros [k [[] _]]].
  - unfold cache_step. simpl.
    destruct (marketInfo up k0) as [value|] eqn:E.
    + destruct value; simpl;
        try (rewrite IH; split;
             [ intros [k [Hin Hk]]; exists k; auto
             | intros [k [[<-|Hin] Hk]];
               [congruence | exists k; auto] ]).
      split; auto. intros _. exists k0. auto.
    + rewrite IH. split.
      * intros [k [Hin Hk]]. exists k. auto.
      * intros [k [[<-|Hin] Hk]]; [congruence | exists k; auto].
Qed.

(** The table after a [forEach] that completed, started from [c0]: the
    entry of [k]. *)
Lemma forEach_get (ks : list string) : forall c0 c k,
  forEach (combine ks (marketInfoResults up ks)) c0 = returns c ->
  if existsb (String.eqb k) ks
  then match marketInfo up k with
       | fulfilled value =>
           exists data,
             marketData value = returns data /\ JsMap.get c k = Some data
       | rejected => JsMap.get c k = JsMap.get c0 k
       end
  else JsMap.get c k = JsMap.get c0 k.
Proof.
  induction ks as [|k0 ks IH]; intros c0 c k; simpl.
  - intros [= <-]. reflexivity.
  - unfold cache_step. simpl.
    destruct (marketInfo up k0) as [value|] eqn:E.
    + destruct (marketData value) as [data|] eqn:D; [|discriminate].
      intros Hc. specialize (IH _ _ k Hc).
      destruct (String.eqb_spec k k0) as [->|Hne]; simpl.
      * rewrite E. destruct (existsb _ ks).
        -- now rewrite E in IH.
        -- exists data. split; auto.
           now rewrite IH, JsMapFacts.get_set_same.
      * assert (Hother : JsMap.get (JsMap.set c0 k0 data) k = JsMap.get c0 k)
          by (apply JsMapFacts.get_set_other; congruence).
        rewrite Hother in IH. exact IH.
    + intros Hc. specialize (IH _ _ k Hc).
      destruct (String.eqb_spec k k0) as [->|Hne]; simpl.
      * rewrite E. destruct (existsb _ ks); auto.
        now rewrite E in IH.
      * exact IH.
Qed.

Lemma forEach_size (ks : list string) : forall c0 c,
  forEach (combine ks (marketInfoResults up ks)) c0 = returns c ->
  JsMap.size c <= JsMap.size c0 + List.length ks.
Proof.
  induction ks as [|k0 ks IH]; intros c0 c; simpl.
  - intros [= <-]. lia.
  - unfold cache_step. simpl.
    destruct (marketInfo up k0) as [value|].
    + destruct (marketData value) as [data|]; [|discriminate].
      intros Hc. apply IH in Hc.
      rewrite JsMapFacts.size_set in Hc. destruct (JsMap.has c0 k0); lia.
    + intros Hc. apply IH in Hc. lia.
Qed.

Lemma forEach_NoDup (ks : list string) : forall c0 c,
  forEach (combine ks (marketInfoResults up ks)) c0 = returns c ->
  NoDup (JsMap.keys c0) -> NoDup (JsMap.keys c).
Proof.
  induction ks as [|k0 ks IH]; intros c0 c; simpl.
  - intros [= <-]. auto.
  - unfold cache_step. simpl.
    destruct (marketInfo up k0) as [value|].
    + destruct (marketData value) as [data|]; [|discriminate].
      intros Hc Hnd. apply (IH _ _ Hc).
      now apply JsMapFacts.NoDup_keys_set.
    + intros Hc Hnd. now apply (IH _ _ Hc).
Qed.

Lemma marketInfoCache_throws_iff (ks : list string) :
  marketInfoCache ks (marketInfoResults up ks) = throws
  <-> exists k, In k ks /\ marketInfo up k = fulfilled NullResponse.
Proof. apply forEach_throws_iff. Qed.

Lemma marketInfoCache_get (ks : list string) (k : string) table :
  marketInfoCache ks (marketInfoResults up ks) = returns table ->
  if existsb (String.eqb k) ks
  then match marketInfo up k with
       | fulfilled value =>
           exists data,
             marketData value = returns data
             /\ JsMap.get table k = Some data
       | rejected => JsMap.get table k = None
       end
  else JsMap.get table k = None.
Proof. intros Hc. apply (@forEach_get ks JsMap.empty table k Hc). Qed.

Lemma marketInfoCache_rejected (ks : list string) (k : string) table :
  marketInfoCache ks (marketInfoResults up ks) = returns table ->
  marketInfo up k = rejected ->
  JsMap.has table k = false.
Proof.
  intros Hc Hrej. apply JsMapFacts.get_None_has.
  pose proof (@marketInfoCache_get ks k table Hc) as H. rewrite Hrej in H.
  now destruct (existsb _ ks).
Qed.
End Resolver.

Lemma existsb_eqb_In (k : string) (ks : list string) :
  existsb (String.eqb k) ks = true <-> In k ks.
Proof.
  rewrite existsb_exists. split.
  - intros [x [Hin Heq]]. apply String.eqb_eq in Heq. now subst.
  - intros Hin. exists k. split; auto. apply String.eqb_refl.
Qed.

Lemma existsb_eqb_not_In (k : string) (ks : list string) :
  existsb (String.eqb k) ks = false <-> ~ In k ks.
Proof.
  rewrite <- existsb_eqb_In. now destruct (existsb _ ks).
Qed.

(** The key of a table built by a completed [forEach]: its identifier is
    among the input and its value is the data of its fulfilled lookup. *)
Lemma marketInfoCache_key (up : Upstream) (ks : list string) table k :
  marketInfoCache ks (marketInfoResults up ks) = returns table ->
  In k (JsMap.keys table) ->
  In k ks
  /\ exists value data,
       marketInfo up k = fulfilled value
       /\ marketData value = returns data
       /\ JsMap.get table k = Some data.
Proof.
  intros Hc Hin. apply JsMapFacts.has_true_iff in Hin.
  apply JsMapFacts.has_get in Hin. destruct Hin as [v Hv].
  pose proof (@marketInfoCache_get up ks k table Hc) as H.
  destruct (existsb (String.eqb k) ks) eqn:E; [|congruence].
  apply existsb_eqb_In in E. split; auto.
  destruct (marketInfo up k) as [value|]; [|congruence].
  destruct H as [data [Hd Hg]]. eauto.
Qed.

Lemma marketInfoCache_fulfilled (up : Upstream) (ks : list string) table k
  value :
  marketInfoCache ks (marketInfoResults up ks) = returns table ->
  In k ks -> marketInfo up k = fulfilled value ->
  exists data, marketData value = returns data
               /\ JsMap.get table k = Some data.
Proof.
  intros Hc Hin Hful.
  pose proof (@marketInfoCache_get up ks k table Hc) as H.
  apply existsb_eqb_In in Hin. now rewrite Hin, Hful in H.
Qed.

(** *** The passes read the records of the table *)

Lemma has_undefined_true_iff (table : JsMap.t (option MarketMetadata)) :
  has_undefined table = true <-> exists k, In (k, None) table.
Proof.
  unfold has_undefined. rewrite existsb_exists. split.
  - intros [[m|] [Hin Hv]]; [discriminate|].
    apply In_values in Hin. exact Hin.
  - intros [k Hin]. exists None. split; auto.
    unfold JsMap.values. apply in_map_iff. exists (k, None). auto.
Qed.

Lemma records_of_get (table : JsMap.t (option MarketMetadata)) k :
  has_undefined table = false ->
  JsMap.get (records_of table) k
  = match JsMap.get table k with
    | Some data => data
    | None => None
    end.
Proof.
  unfold has_undefined.
  induction table as [|[k0 [m|]] table IH]; simpl; auto; [|discriminate].
  intros Hdef. destruct (String.eqb k0 k); auto.
Qed.

Lemma records_of_has (table : JsMap.t (option MarketMetadata)) k :
  has_undefined table = false ->
  JsMap.has (records_of table) k = JsMap.has table k.
Proof.
  intros Hdef. unfold JsMap.has. rewrite records_of_get by exact Hdef.
  destruct (JsMap.get table k) as [[m|]|] eqn:E; auto.
  exfalso. apply JsMapFacts.get_In in E.
  assert (H : has_undefined table = true)
    by (apply has_undefined_true_iff; eauto).
  congruence.
Qed.

(** C7, as the code has it.  When the [forEach] completes, the lookup
    table has its keys among the identifiers, without repetition, and so at
    most as many entries; every key holds the data of its own fulfilled
    lookup, an identifier whose lookup was rejected is absent, and the
    entry of an identifier depends on its own lookup only.  But the value
    stored is [market || event] of the fulfilled body, unchecked: an
    identifier whose lookup is fulfilled with a body that has neither is
    present in the table with the value undefined, not absent.  Pass 1 then
    throws on that value, and the cycle that looked these identifiers up is
    rejected. *)
Theorem resolver_table_may_hold_undefined (up : Upstream)
  (tickers : list string) (table : JsMap.t (option MarketMetadata)) :
  marketInfoCache tickers (marketInfoResults up tickers) = returns table ->
  (forall k, In k (JsMap.keys table) -> In k tickers)
  /\ NoDup (JsMap.keys table)
  /\ JsMap.size table <= List.length tickers
  /\ (forall k, In k (JsMap.keys table) ->
        exists value data,
          marketInfo up k = fulfilled value
          /\ marketData value = returns data
          /\ JsMap.get table k = Some data)
  /\ (forall k market,
        In k tickers ->
        marketInfo up k = fulfilled (MarketResponse market)
        \/ marketInfo up k = fulfilled (EventResponse market) ->
        JsMap.get table k = Some (Some market))
  /\ (forall k, marketInfo up k = rejected ->
        JsMap.has table k = false /\ JsMap.get table k = None)
  /\ (forall up' table' k,
        marketInfoCache tickers (marketInfoResults up' tickers)
        = returns table' ->
        marketInfo up' k = marketInfo up k ->
        JsMap.get table' k = JsMap.get table k)
  /\ (forall k,
        In k tickers -> marketInfo up k = fulfilled OtherResponse ->
        In k (JsMap.keys table)
        /\ JsMap.get table k = Some None
        /\ has_undefined table = true
        /\ (tickers = marketTickers (allTrades (paginate up)) ->
            queryFn up = rejected)).
Proof.
  intros Hc.
  split; [intros k Hk; apply (@marketInfoCache_key up tickers table k Hc Hk)|].
  split; [apply (@forEach_NoDup up tickers JsMap.empty table Hc); constructor|].
  split; [apply (@forEach_size up tickers JsMap.empty table Hc)|].
  split; [intros k Hk; apply (@marketInfoCache_key up tickers table k Hc Hk)|].
  split.
  { intros k market Hin [Hful|Hful];
      destruct (@marketInfoCache_fulfilled up tickers table k _ Hc Hin Hful)
        as [data [Hd Hg]]; simpl in Hd; congruence. }
  split.
  { intros k Hrej.
    pose proof (@marketInfoCache_rejected up tickers k table Hc Hrej) as Hhas.
    split; [exact Hhas | now apply JsMapFacts.get_None_has]. }
  split.
  { intros up' table' k Hc' Hsame.
    pose proof (@marketInfoCache_get up tickers k table Hc) as H.
    pose proof (@marketInfoCache_get up' tickers k table' Hc') as H'.
    rewrite Hsame in H'.
    destruct (existsb (String.eqb k) tickers); [|congruence].
    destruct (marketInfo up k) as [value|]; [|congruence].
    destruct H as [d [Hd Hg]]. destruct H' as [d' [Hd' Hg']]. congruence. }
  intros k Hin Hful.
  destruct (@marketInfoCache_fulfilled up tickers table k _ Hc Hin Hful)
    as [data [Hd Hg]].
  simpl in Hd. injection Hd as <-.
  assert (Hundef : has_undefined table = true).
  { apply has_undefined_true_iff. exists k.
    now apply JsMapFacts.get_In. }
  split.
  { apply JsMapFacts.has_true_iff. unfold JsMap.has. now rewrite Hg. }
  split; [exact Hg|]. split; [exact Hundef|].
  intros ->. unfold queryFn. now rewrite Hc, Hundef.
Qed.

Lemma resolver_table_may_hold_undefined_witness :
  marketInfoCache ["X"; "W"] (marketInfoResults lookup_without_record ["X"; "W"])
  = returns [("X", Some scenario_A_details); ("W", None)]
  /\ JsMap.has [("X", Some scenario_A_details); ("W", None)] "W" = true
  /\ JsMap.get [("X", Some scenario_A_details); ("W", None)] "W" = Some None
  /\ queryFn lookup_without_record = rejected.
Proof.
  split; [reflexivity|]. split; [reflexivity|].
  destruct (@resolver_table_may_hold_undefined lookup_without_record
              ["X"; "W"]
              [("X", Some scenario_A_details); ("W", None)])
    as (_ & _ & _ & _ & _ & _ & _ & H); [reflexivity|].
  destruct (H "W") as (_ & Hget & _ & Hq); [simpl; auto|reflexivity|].
  split; [exact Hget | apply Hq; reflexivity].
Defined.

(** ** Pass 2: the fold *)

Section Fold.
Variable cache : JsMap.t MarketMetadata.
Variable thr : Q.

Lemma fold_trade_unresolved (mm : JsMap.t Market) (t : Trade) :
  JsMap.has cache (ticker t) = false ->
  fold_trade cache thr mm (align cache t) = mm.
Proof. intros H. unfold fold_trade. simpl. now rewrite H. Qed.

Lemma fold_trade_get_other (mm : JsMap.t Market) (t : Trade) (y : string) :
  ticker t <> y ->
  JsMap.get (fold_trade cache thr mm (align cache t)) y = JsMap.get mm y.
Proof.
  intros Hne. unfold fold_trade. simpl.
  destruct (JsMap.has cache (ticker t)); simpl; auto.
  destruct (JsMap.has mm (ticker t)); simpl.
  - destruct (JsMap.get mm (ticker t)); auto.
    now apply JsMapFacts.get_set_other.
  - now apply JsMapFacts.get_set_other.
Qed.

Lemma fold_trade_get_same (mm : JsMap.t Market) (t : Trade) :
  JsMap.has cache (ticker t) = true ->
  JsMap.get (fold_trade cache thr mm (align cache t)) (ticker t)
  = Some (match JsMap.get mm (ticker t) with
          | None => new_entry (align cache t)
                      (isWhaleTrade thr (align cache t))
          | Some existingMarket =>
              update_entry existingMarket (align cache t)
                (isWhaleTrade thr (align cache t))
          end).
Proof.
  intros Hres. unfold fold_trade. simpl. rewrite Hres. simpl.
  unfold JsMap.has.
  destruct (JsMap.get mm (ticker t)); simpl;
    apply JsMapFacts.get_set_same.
Qed.

(** The entry of a resolved ticker after the fold. *)
Lemma fold_get (y : string) :
  JsMap.has cache y = true ->
  forall ts mm,
    JsMap.get (fold_left (fold_trade cache thr) (map (align cache) ts) mm) y
    = entry_after cache (isWhaleTrade thr) y (JsMap.get mm y) ts.
Proof.
  intros Hres. induction ts as [|t ts IH]; intros mm; simpl; auto.
  rewrite IH. f_equal.
  destruct (String.eqb_spec (ticker t) y) as [Heq|Hne].
  - subst y. now apply fold_trade_get_same.
  - now apply fold_trade_get_other.
Qed.

(** Trades on unresolved tickers can be dropped before the fold. *)
Lemma fold_skips_unresolved (keep : Trade -> bool) :
  (forall t, keep t = false -> JsMap.has cache (ticker t) = false) ->
  forall ts mm,
    fold_left (fold_trade cache thr) (map (align cache) ts) mm
    = fold_left (fold_trade cache thr)
        (map (align cache) (filter keep ts)) mm.
Proof.
  intros Hkeep. induction ts as [|t ts IH]; intros mm; simpl; auto.
  destruct (keep t) eqn:E; simpl.
  - apply IH.
  - rewrite fold_trade_unresolved by auto. apply IH.
Qed.

Lemma fold_trade_well_keyed (mm : JsMap.t Market) (t : Trade) :
  well_keyed cache mm ->
  well_keyed cache (fold_trade cache thr mm (align cache t)).
Proof.
  intros [Hnd Hent]. unfold fold_trade. simpl.
  destruct (JsMap.has cache (ticker t)) eqn:Hres; simpl; [|split; auto].
  destruct (JsMap.has mm (ticker t)) eqn:Hhas; simpl.
  - destruct (JsMap.get mm (ticker t)) as [e|] eqn:Hget; [|split; auto].
    split; [now apply JsMapFacts.NoDup_keys_set|].
    intros k r Hin. apply JsMapFacts.In_set in Hin.
    destruct Hin as [[-> ->]|Hin]; auto.
    simpl. split; auto.
    apply JsMapFacts.get_In in Hget. apply (Hent _ _ Hget).
  - split; [now apply JsMapFacts.NoDup_keys_set|].
    intros k r Hin. apply JsMapFacts.In_set in Hin.
    destruct Hin as [[-> ->]|Hin]; auto.
Qed.

Lemma fold_well_keyed : forall ts mm,
  well_keyed cache mm ->
  well_keyed cache
    (fold_left (fold_trade cache thr) (map (align cache) ts) mm).
Proof.
  induction ts as [|t ts IH]; intros mm Hmm; simpl; auto.
  apply IH. now apply fold_trade_well_keyed.
Qed.

(** *** The fields of the folded entry *)

Lemma entry_after_flag (w : AlignedTrade -> bool) (y : string) :
  forall ts e,
    flag_of (entry_after cache w y e ts)
    = flag_of e
      || existsb (fun t => String.eqb (ticker t) y && w (align cache t)) ts.
Proof.
  induction ts as [|t ts IH]; intros e; simpl.
  - now rewrite orb_false_r.
  - rewrite IH. rewrite orb_assoc. f_equal.
    destruct (String.eqb (ticker t) y); simpl.
    + destruct e as [r|]; simpl; auto.
      destruct (w (align cache t)); simpl; auto using orb_true_r, orb_false_r.
    + now rewrite orb_false_r.
Qed.

Lemma entry_after_keeps (w : AlignedTrade -> bool) (y : string) :
  forall ts r0, exists r, entry_after cache w y (Some r0) ts = Some r.
Proof.
  induction ts as [|t ts IH]; intros r0; simpl; eauto.
  destruct (String.eqb (ticker t) y); apply IH.
Qed.

Lemma entry_after_some (w : AlignedTrade -> bool) (y : string) :
  forall ts e,
    (exists t, In t ts /\ ticker t = y) ->
    exists r, entry_after cache w y e ts = Some r.
Proof.
  induction ts as [|t ts IH]; intros e [t0 [Hin Ht0]]; [destruct Hin|].
  simpl. destruct Hin as [->|Hin].
  - rewrite Ht0, String.eqb_refl. apply entry_after_keeps.
  - apply IH. eauto.
Qed.

(** A property that every new entry has and every update keeps holds of
    the folded entry. *)
Lemma entry_after_inv (w : AlignedTrade -> bool) (y : string)
  (P : Market -> Prop) :
  (forall t b, ticker t = y -> P (new_entry (align cache t) b)) ->
  (forall r t b, ticker t = y -> P r -> P (update_entry r (align cache t) b)) ->
  forall ts e,
    (forall r0, e = Some r0 -> P r0) ->
    forall r, entry_after cache w y e ts = Some r -> P r.
Proof.
  intros Hnew Hupd. induction ts as [|t ts IH]; intros e He r; simpl.
  - intros ->. auto.
  - apply IH. intros r0.
    destruct (String.eqb_spec (ticker t) y) as [Heq|Hne]; auto.
    intros [= <-]. destruct e as [r1|]; auto.
Qed.
End Fold.

Lemma marketsMap_well_keyed (cache : JsMap.t MarketMetadata) (ts : list Trade) :
  well_keyed cache (marketsMap cache ts).
Proof.
  apply fold_well_keyed. split; [constructor | intros k r []].
Qed.

Lemma marketsMap_get (cache : JsMap.t MarketMetadata) (ts : list Trade)
  (y : string) :
  JsMap.has cache y = true ->
  JsMap.get (marketsMap cache ts) y
  = entry_after cache (isWhaleTrade (whaleThreshold cache)) y None ts.
Proof. intros Hres. unfold marketsMap. now rewrite fold_get. Qed.

Lemma In_filteredCryptoMarkets (ms : list Market) (r : Market) :
  In r (filteredCryptoMarkets ms) -> In r ms.
Proof.
  unfold filteredCryptoMarkets. intros H.
  apply filter_In in H. destruct H as [H _].
  apply filter_In in H. tauto.
Qed.

(** Every rollup of the fold, and so of the output, belongs to a resolved
    ticker. *)
Lemma rollup_resolved (cache : JsMap.t MarketMetadata) (ts : list Trade)
  (r : Market) :
  In r (JsMap.values (marketsMap cache ts)) ->
  JsMap.has cache (ticker_symbol r) = true
  /\ JsMap.get (marketsMap cache ts) (ticker_symbol r) = Some r.
Proof.
  intros Hin. apply In_values in Hin. destruct Hin as [k Hin].
  destruct (marketsMap_well_keyed cache ts) as [Hnd Hent].
  destruct (Hent _ _ Hin) as [-> Hres].
  split; auto. now apply JsMapFacts.In_get.
Qed.

(** ** Unresolved tickers *)

(** A market is in the response of a cycle only when the [forEach]
    completed with a table that holds no undefined value; it then passed the
    output filters from the rollups folded over the records of that
    table. *)
Lemma queryFn_markets (up : Upstream) (r : Market) :
  In r (markets_of (queryFn up)) ->
  let ts := allTrades (paginate up) in
  exists table,
    marketInfoCache (marketTickers ts)
      (marketInfoResults up (marketTickers ts)) = returns table
    /\ has_undefined table = false
    /\ In r (filteredCryptoMarkets
               (JsMap.values (marketsMap (records_of table) ts))).
Proof.
  intros Hin ts. unfold queryFn in Hin. fold ts in Hin.
  destruct (marketInfoCache (marketTickers ts)
              (marketInfoResults up (marketTickers ts)))
    as [table|]; simpl in Hin; [|contradiction].
  destruct (has_undefined table) eqn:Hdef; simpl in Hin; [contradiction|].
  exists table. auto.
Qed.

(** C3.  When an identifier [z] is absent from the lookup table, a trade on
    [z] leaves the rollup map as it is (nothing is created, nothing is
    updated), the fold is the fold of the trade sequence without the trades
    on [z], and no rollup for [z] is in the map, among the folded rollups or
    in the output of a cycle that built this table, whatever the trades'
    notional values; and the output of any cycle has no rollup for an
    identifier that is absent from the table the cycle built. *)
Theorem unresolved_trades_excluded (cache : JsMap.t MarketMetadata)
  (z : string) :
  JsMap.has cache z = false ->
  (forall thr mm t,
     ticker t = z -> fold_trade cache thr mm (align cache t) = mm)
  /\ (forall ts,
        marketsMap cache ts
        = marketsMap cache
            (filter (fun t => negb (String.eqb (ticker t) z)) ts))
  /\ (forall ts, JsMap.get (marketsMap cache ts) z = None)
  /\ (forall ts r,
        In r (JsMap.values (marketsMap cache ts)) -> ticker_symbol r <> z)
  /\ (forall up table r,
        marketInfoCache (marketTickers (allTrades (paginate up)))
          (marketInfoResults up (marketTickers (allTrades (paginate up))))
        = returns table ->
        records_of table = cache ->
        In r (markets_of (queryFn up)) -> ticker_symbol r <> z)
  /\ (forall up table r z',
        marketInfoCache (marketTickers (allTrades (paginate up)))
          (marketInfoResults up (marketTickers (allTrades (paginate up))))
        = returns table ->
        JsMap.has table z' = false ->
        In r (markets_of (queryFn up)) -> ticker_symbol r <> z').
Proof.
  intros Hz.
  assert (Hvalues : forall ts r,
            In r (JsMap.values (marketsMap cache ts)) -> ticker_symbol r <> z).
  { intros ts r Hin Heq. apply rollup_resolved in Hin.
    destruct Hin as [Hres _]. congruence. }
  split.
  { intros thr mm t Ht. apply fold_trade_unresolved. now rewrite Ht. }
  split.
  { intros ts. unfold marketsMap. apply fold_skips_unresolved.
    intros t Ht. apply negb_false_iff, String.eqb_eq in Ht. now rewrite Ht. }
  split.
  { intros ts. destruct (JsMap.get (marketsMap cache ts) z) as [r|] eqn:E; auto.
    exfalso. apply JsMapFacts.get_In in E.
    destruct (marketsMap_well_keyed cache ts) as [_ Hent].
    destruct (Hent _ _ E) as [_ Hres]. congruence. }
  split; [exact Hvalues|].
  split.
  { intros up table r Htable Hcache Hin. unfold queryFn in Hin.
    rewrite Htable in Hin.
    destruct (has_undefined table); simpl in Hin; [contradiction|].
    rewrite Hcache in Hin. apply In_filteredCryptoMarkets in Hin.
    now apply Hvalues in Hin. }
  intros up table r z' Htable Habsent Hin Heq.
  destruct (queryFn_markets up r Hin) as (table' & Htable' & Hdef & Hin').
  rewrite Htable in Htable'. injection Htable' as <-.
  apply In_filteredCryptoMarkets in Hin'.
  apply rollup_resolved in Hin'. destruct Hin' as [Hres _].
  rewrite records_of_has in Hres by exact Hdef. congruence.
Qed.

Lemma unresolved_trades_excluded_witness :
  JsMap.get
    (marketsMap [("X", scenario_A_details)]
       [a_trade "Z" 1000 99 "t0"; scenario_A_trade]) "Z" = None.
Proof.
  apply (@unresolved_trades_excluded [("X", scenario_A_details)] "Z").
  reflexivity.
Defined.

(** A rejected lookup keeps its ticker out of the response. *)
Lemma rejected_lookup_no_rollup (up : Upstream) (z : string) (r : Market) :
  marketInfo up z = rejected ->
  In r (markets_of (queryFn up)) -> ticker_symbol r <> z.
Proof.
  intros Hrej Hin. unfold queryFn in Hin.
  set (ts := allTrades (paginate up)) in *.
  destruct (marketInfoCache (marketTickers ts)
              (marketInfoResults up (marketTickers ts)))
    as [table|] eqn:Htable; simpl in Hin; [|contradiction].
  destruct (has_undefined table) eqn:Hdef; simpl in Hin; [contradiction|].
  assert (Hz : JsMap.has (records_of table) z = false).
  { rewrite records_of_has by exact Hdef.
    exact (@marketInfoCache_rejected up (marketTickers ts) z table
             Htable Hrej). }
  apply In_filteredCryptoMarkets in Hin.
  apply rollup_resolved in Hin. destruct Hin as [Hres _]. congruence.
Qed.

(** ** Scenario C: several trades on one market *)

(** The whale flag of a resolved ticker's rollup is the disjunction of the
    classifications of its trades. *)
Lemma marketsMap_flag (cache : JsMap.t MarketMetadata) (ts : list Trade)
  (y : string) :
  JsMap.has cache y = true ->
  flag_of (JsMap.get (marketsMap cache ts) y) = whale_on cache y ts.
Proof.
  intros Hres. rewrite marketsMap_get by assumption.
  now rewrite entry_after_flag.
Qed.

(** C4, as the code has it.  When the trades hold a whale trade and a
    trade that is not one on the same resolved ticker [y], the fold has
    exactly one rollup for [y]; its whale flag is true; and its volume is the
    volume snapshot of the details resolved for [y], in which the quantities
    of the trades do not enter. *)
Theorem mixed_trades_rollup (cache : JsMap.t MarketMetadata) (ts : list Trade)
  (y : string) (md : MarketMetadata) (tw tn : Trade) :
  JsMap.get cache y = Some md ->
  In tw ts -> ticker tw = y ->
  isWhaleTrade (whaleThreshold cache) (align cache tw) = true ->
  In tn ts -> ticker tn = y ->
  isWhaleTrade (whaleThreshold cache) (align cache tn) = false ->
  exists rollup,
    JsMap.get (marketsMap cache ts) y = Some rollup
    /\ ticker_symbol rollup = y
    /\ high_volume rollup = true
    /\ volume rollup = md_volume md
    /\ (forall r, In r (JsMap.values (marketsMap cache ts)) ->
          ticker_symbol r = y -> r = rollup)
    /\ (forall r,
          In r (filteredCryptoMarkets (JsMap.values (marketsMap cache ts))) ->
          ticker_symbol r = y -> r = rollup).
Proof.
  intros Hmd Hw Htw Hwhale Hn Htn Hsmall.
  assert (Hres : JsMap.has cache y = true).
  { apply JsMapFacts.has_get. eauto. }
  pose proof (@marketsMap_get cache ts y Hres) as Hget.
  destruct (@entry_after_some cache (isWhaleTrade (whaleThreshold cache))
              y ts None) as [rollup Hroll]; [now exists tw|].
  rewrite Hroll in Hget. exists rollup.
  assert (Hsingle : forall r, In r (JsMap.values (marketsMap cache ts)) ->
                      ticker_symbol r = y -> r = rollup).
  { intros r Hin Hr. apply rollup_resolved in Hin.
    destruct Hin as [_ Hin]. rewrite Hr in Hin. congruence. }
  split; [exact Hget|]. split.
  { apply (@entry_after_inv cache (isWhaleTrade (whaleThreshold cache)) y
             (fun r => ticker_symbol r = y)) with (ts := ts) (e := None);
      simpl; auto; discriminate. }
  split.
  { pose proof (@marketsMap_flag cache ts y Hres) as Hflag.
    rewrite Hget in Hflag. simpl in Hflag. rewrite Hflag.
    apply existsb_exists. exists tw. split; auto.
    now rewrite Htw, String.eqb_refl, Hwhale. }
  split.
  { apply (@entry_after_inv cache (isWhaleTrade (whaleThreshold cache)) y
             (fun r => volume r = md_volume md)) with (ts := ts) (e := None);
      auto; try discriminate.
    - intros t b Ht. simpl. unfold detail. simpl. now rewrite Ht, Hmd.
    - intros r t b Ht _. simpl. unfold detail. simpl. now rewrite Ht, Hmd. }
  split; [exact Hsingle|].
  intros r Hin. apply Hsingle. now apply In_filteredCryptoMarkets.
Qed.

Lemma mixed_trades_rollup_witness :
  exists rollup,
    JsMap.get (marketsMap scenario_C_cache scenario_C_trades) "Y" = Some rollup
    /\ high_volume rollup = true
    /\ volume rollup = Some 5000%Q.
Proof.
  destruct (@mixed_trades_rollup scenario_C_cache scenario_C_trades "Y"
              (details "Ethereum above 5k?" 5000 1000 50)
              (a_trade "Y" 10 60 "t1") (a_trade "Y" 1 60 "t2"))
    as (rollup & Hget & _ & Hflag & Hvol & _);
    try reflexivity; simpl; auto.
  exists rollup. auto.
Defined.

(** C4 as stated fails on the volume: after the whale trade of 10 and the
    trade of 1 on Y the rollup is flagged, but its volume is the snapshot
    5000 of Y's details, not the cumulative quantity 11 of the two trades;
    with a whale trade of 20 and a small trade of 2 the volume is the same. *)
Lemma rollup_volume_not_cumulative :
  (exists rollup,
     marketsMap scenario_C_cache scenario_C_trades = [("Y", rollup)]
     /\ high_volume rollup = true
     /\ volume rollup = Some 5000%Q)
  /\ (cumulative_quantity "Y" scenario_C_trades == 11)%Q
  /\ ~ (5000 == cumulative_quantity "Y" scenario_C_trades)%Q
  /\ (exists rollup,
        marketsMap scenario_C_cache
          [a_trade "Y" 20 60 "t1"; a_trade "Y" 2 30 "t2"] = [("Y", rollup)]
        /\ high_volume rollup = true
        /\ volume rollup = Some 5000%Q).
Proof.
  split; [eexists; split; [reflexivity|split; reflexivity]|].
  split; [reflexivity|].
  split; [intros H; vm_compute in H; discriminate|].
  eexists; split; [reflexivity|split; reflexivity].
Qed.

(** ** The proxy route and the event fallback *)

Section RouteFacts.
Variable J : Type.
Variable upstream : string -> Settled (Route.Response J).
Variable ticker : string.



End RouteFacts.




(** * Further properties of the refresh cycle *)

(** ** The request log of the paginator *)

Lemma pagination_loop_S (up : Upstream) (n i : nat) (st : PageLoop) :
  pagination_loop up (S n) i st
  = let sent := if Js.truthy (currentCursor st)
                then currentCursor st else None in
    match tradesPage up i sent with
    | fulfilled tradeData =>
        let acc := match trades tradeData with
                   | Some ts => allTrades st ++ ts
                   | None => allTrades st
                   end in
        if Js.truthy (cursor tradeData)
        then pagination_loop up n (S i)
               {| allTrades := acc;
                  currentCursor := cursor tradeData;
                  requests := requests st ++ [sent] |}
        else {| allTrades := acc;
                currentCursor := currentCursor st;
                requests := requests st ++ [sent] |}
    | rejected =>
        {| allTrades := allTrades st;
           currentCursor := currentCursor st;
           requests := requests st ++ [sent] |}
    end.
Proof. reflexivity. Qed.

Lemma pagination_loop_chained (up : Upstream) (n : nat) : forall i st,
  let sent := if Js.truthy (currentCursor st)
              then currentCursor st else None in
  exists rest,
    requests (pagination_loop up (S n) i st) = requests st ++ sent :: rest
    /\ chained up n i sent rest.
Proof.
  induction n as [|n IH]; intros i st sent.
  - simpl. fold sent.
    destruct (tradesPage up i sent) as [tradeData|] eqn:Hpage.
    + destruct (Js.truthy (cursor tradeData)); exists []; simpl; auto.
    + exists []. simpl. auto.
  - rewrite pagination_loop_S. cbv zeta. fold sent.
    destruct (tradesPage up i sent) as [tradeData|] eqn:Hpage.
    + destruct (Js.truthy (cursor tradeData)) eqn:Hcur.
      * destruct (IH (S i)
          {| allTrades := match trades tradeData with
                          | Some ts => allTrades st ++ ts
                          | None => allTrades st
                          end;
             currentCursor := cursor tradeData;
             requests := requests st ++ [sent] |}) as [rest [Hreq Hch]].
        cbn [currentCursor requests] in Hreq, Hch. rewrite Hcur in Hreq, Hch.
        exists (cursor tradeData :: rest). split.
        -- rewrite Hreq, <- app_assoc. reflexivity.
        -- simpl. exists tradeData. auto.
      * exists []. simpl. split; auto. right. unfold stops.
        now rewrite Hpage.
    + exists []. simpl. split; auto. right. unfold stops. now rewrite Hpage.
Qed.

(** The first request carries no cursor; every later request carries the
    truthy cursor of the page fetched just before it; and the paginator
    stops before its fifth request only at a request that is rejected or
    whose page names no next page. *)
Theorem paginate_cursor_chain (up : Upstream) :
  exists rest,
    requests (paginate up) = None :: rest
    /\ chained up 4 0 None rest.
Proof.
  destruct (pagination_loop_chained up 4 0
              {| allTrades := []; currentCursor := None; requests := [] |})
    as [rest [Hreq Hch]].
  exists rest. split; [exact Hreq | exact Hch].
Qed.

(** ** The distinct tickers *)

Lemma new_Set_spec (xs : list string) : forall seen,
  NoDup seen ->
  NoDup (new_Set xs seen)
  /\ (forall k, In k (new_Set xs seen) <-> In k seen \/ In k xs)
  /\ List.length (new_Set xs seen) <= List.length seen + List.length xs.
Proof.
  induction xs as [|x xs IH]; intros seen Hnd; simpl.
  - split; auto. split; [tauto | lia].
  - destruct (existsb (String.eqb x) seen) eqn:E.
    + destruct (IH seen Hnd) as (H1 & H2 & H3).
      split; auto. split; [|lia].
      intros k. rewrite H2. apply existsb_eqb_In in E.
      split; [tauto|]. intros [?|[<-|?]]; auto.
    + assert (Hnd' : NoDup (seen ++ [x])).
      { apply NoDup_app; auto.
        - repeat constructor. simpl. tauto.
        - intros y Hy [Heq|[]]. subst y.
          assert (existsb (String.eqb x) seen = true)
            by now apply existsb_eqb_In.
          congruence. }
      destruct (IH (seen ++ [x]) Hnd') as (H1 & H2 & H3).
      split; auto. split.
      * intros k. rewrite H2, in_app_iff. simpl. tauto.
      * rewrite length_app in H3. simpl in H3. lia.
Qed.

(** One lookup per distinct identifier: the tickers handed to the resolver
    are exactly the tickers of the trades, each once, and no more than there
    are trades. *)
Theorem marketTickers_distinct (ts : list Trade) :
  NoDup (marketTickers ts)
  /\ (forall k, In k (marketTickers ts) <-> exists t, In t ts /\ ticker t = k)
  /\ List.length (marketTickers ts) <= List.length ts.
Proof.
  destruct (@new_Set_spec (map ticker ts) [] (NoDup_nil _)) as (H1 & H2 & H3).
  split; [exact H1|]. split.
  - intros k. unfold marketTickers. rewrite H2, in_map_iff. simpl.
    split.
    + intros [[]|[t [Ht Hin]]]. eauto.
    + intros [t [Hin Ht]]. right. eauto.
  - unfold marketTickers. rewrite length_map in H3. simpl in H3. exact H3.
Qed.

(** ** Which rollups exist, and in which order *)

Lemma entry_after_no_trade (cache : JsMap.t MarketMetadata)
  (w : AlignedTrade -> bool) (y : string) : forall ts e,
  existsb (fun t => String.eqb (ticker t) y) ts = false ->
  entry_after cache w y e ts = e.
Proof.
  induction ts as [|t ts IH]; intros e H; simpl in *; auto.
  apply orb_false_iff in H. destruct H as [Ht Hts].
  rewrite Ht. now apply IH.
Qed.

Lemma existsb_ticker (y : string) (ts : list Trade) :
  existsb (fun t => String.eqb (ticker t) y) ts = true
  <-> exists t, In t ts /\ ticker t = y.
Proof.
  rewrite existsb_exists. split; intros [t [Hin Ht]]; exists t; split; auto.
  - now apply String.eqb_eq.
  - now apply String.eqb_eq.
Qed.

Lemma marketsMap_resolved (cache : JsMap.t MarketMetadata) (ts : list Trade)
  (y : string) (r : Market) :
  JsMap.get (marketsMap cache ts) y = Some r -> JsMap.has cache y = true.
Proof.
  intros Hget. apply JsMapFacts.get_In in Hget.
  destruct (marketsMap_well_keyed cache ts) as [_ Hent].
  now destruct (Hent _ _ Hget).
Qed.

(** A rollup exists for a ticker exactly when the ticker resolved and at
    least one trade of the cycle is on it. *)
Theorem rollup_exists_iff (cache : JsMap.t MarketMetadata) (ts : list Trade)
  (y : string) :
  (exists r, JsMap.get (marketsMap cache ts) y = Some r)
  <-> JsMap.has cache y = true /\ exists t, In t ts /\ ticker t = y.
Proof.
  split.
  - intros [r Hget]. pose proof (marketsMap_resolved _ _ _ Hget) as Hres.
    split; auto. apply existsb_ticker.
    destruct (existsb (fun t => String.eqb (ticker t) y) ts) eqn:E; auto.
    rewrite marketsMap_get in Hget by assumption.
    rewrite entry_after_no_trade in Hget by assumption. discriminate.
  - intros [Hres Htrade]. rewrite marketsMap_get by assumption.
    now apply entry_after_some.
Qed.

Lemma existsb_eqb_has (V : Type) (m : JsMap.t V) (k : string) :
  existsb (String.eqb k) (JsMap.keys m) = JsMap.has m k.
Proof.
  destruct (JsMap.has m k) eqn:E.
  - apply existsb_eqb_In. now apply JsMapFacts.has_true_iff.
  - apply not_true_iff_false. rewrite existsb_eqb_In.
    now apply JsMapFacts.has_false_iff.
Qed.

Lemma fold_keys (cache : JsMap.t MarketMetadata) (thr : Q) : forall ts mm,
  JsMap.keys (fold_left (fold_trade cache thr) (map (align cache) ts) mm)
  = new_Set (map ticker (resolved_trades cache ts)) (JsMap.keys mm).
Proof.
  induction ts as [|t ts IH]; intros mm; simpl; auto.
  rewrite IH. unfold fold_trade. cbn [trade align].
  destruct (JsMap.has cache (ticker t)) eqn:Hres; cbn [negb]; auto.
  cbn [map new_Set]. rewrite existsb_eqb_has.
  destruct (JsMap.has mm (ticker t)) eqn:Hhas; cbn [negb].
  - destruct (JsMap.get mm (ticker t)) eqn:Hget; auto.
    now rewrite JsMapFacts.keys_set, Hhas.
  - now rewrite JsMapFacts.keys_set, Hhas.
Qed.

Lemma well_keyed_symbols (cache : JsMap.t MarketMetadata)
  (mm : JsMap.t Market) :
  well_keyed cache mm ->
  map ticker_symbol (JsMap.values mm) = JsMap.keys mm.
Proof.
  intros [_ Hent]. induction mm as [|[k r] mm IH]; simpl; auto.
  f_equal.
  - apply (Hent k r). now left.
  - apply IH. intros k' r' Hin. apply Hent. now right.
Qed.

(** The rollups come in the order in which their tickers are first seen
    among the trades on resolved tickers, one rollup per ticker. *)
Theorem rollup_order (cache : JsMap.t MarketMetadata) (ts : list Trade) :
  map ticker_symbol (JsMap.values (marketsMap cache ts))
  = marketTickers (resolved_trades cache ts)
  /\ NoDup (map ticker_symbol (JsMap.values (marketsMap cache ts))).
Proof.
  assert (H : map ticker_symbol (JsMap.values (marketsMap cache ts))
              = marketTickers (resolved_trades cache ts)).
  { rewrite (well_keyed_symbols (marketsMap_well_keyed cache ts)).
    unfold marketsMap. now rewrite fold_keys. }
  split; [exact H|]. rewrite H. unfold marketTickers.
  apply (@new_Set_spec (map ticker (resolved_trades cache ts)) []).
  constructor.
Qed.

(** ** The whale flag of a rollup *)

(** The rollup of a ticker is flagged exactly when the notional value of
    at least one trade on that ticker exceeds the threshold. *)
Theorem whale_flag_iff (cache : JsMap.t MarketMetadata) (ts : list Trade)
  (y : string) (r : Market) :
  JsMap.get (marketsMap cache ts) y = Some r ->
  (high_volume r = true
   <-> exists t, In t ts /\ ticker t = y
                 /\ (whaleThreshold cache
                     < tradeNotionalValue (align cache t))%Q).
Proof.
  intros Hget. pose proof (marketsMap_resolved _ _ _ Hget) as Hres.
  pose proof (@marketsMap_flag cache ts y Hres) as Hflag.
  rewrite Hget in Hflag. simpl in Hflag. rewrite Hflag.
  unfold whale_on. rewrite existsb_exists.
  split.
  - intros [t [Hin Ht]]. apply andb_true_iff in Ht. destruct Ht as [Ht Hw].
    exists t. split; auto. split; [now apply String.eqb_eq|].
    now apply gt_true_iff.
  - intros [t [Hin [Ht Hw]]]. exists t. split; auto.
    apply andb_true_iff. split; [now apply String.eqb_eq|].
    now apply gt_true_iff.
Qed.

Lemma whale_flag_iff_witness :
  exists t, In t scenario_C_trades /\ ticker t = "Y"
            /\ (whaleThreshold scenario_C_cache
                < tradeNotionalValue (align scenario_C_cache t))%Q.
Proof.
  apply (@whale_flag_iff scenario_C_cache scenario_C_trades "Y"
           (update_entry
              (new_entry (align scenario_C_cache (a_trade "Y" 10 60 "t1")) true)
              (align scenario_C_cache (a_trade "Y" 1 60 "t2")) false));
    reflexivity.
Defined.

(** Once the rollup of a ticker is flagged, folding further trades keeps a
    flagged rollup for that ticker. *)
Theorem whale_flag_monotone (cache : JsMap.t MarketMetadata)
  (ts more : list Trade) (y : string) (r : Market) :
  JsMap.get (marketsMap cache ts) y = Some r ->
  high_volume r = true ->
  exists r', JsMap.get (marketsMap cache (ts ++ more)) y = Some r'
             /\ high_volume r' = true.
Proof.
  intros Hget Hflag. pose proof (marketsMap_resolved _ _ _ Hget) as Hres.
  pose proof (@marketsMap_flag cache ts y Hres) as H1.
  pose proof (@marketsMap_flag cache (ts ++ more) y Hres) as H2.
  rewrite Hget in H1. simpl in H1.
  unfold whale_on in H2. rewrite existsb_app in H2.
  fold (whale_on cache y ts) in H2. rewrite <- H1, Hflag in H2. simpl in H2.
  destruct (JsMap.get (marketsMap cache (ts ++ more)) y) as [r'|];
    [|discriminate].
  exists r'. auto.
Qed.

Lemma whale_flag_monotone_witness :
  exists r',
    JsMap.get (marketsMap scenario_C_cache
                 ([a_trade "Y" 10 60 "t1"] ++ [a_trade "Y" 1 60 "t2"])) "Y"
    = Some r'
    /\ high_volume r' = true.
Proof.
  apply (@whale_flag_monotone scenario_C_cache [a_trade "Y" 10 60 "t1"]
           [a_trade "Y" 1 60 "t2"] "Y"
           (new_entry (align scenario_C_cache (a_trade "Y" 10 60 "t1")) true));
    reflexivity.
Defined.

(** ** The fields of a rollup *)

Lemma detail_align (A : Type) (f : MarketMetadata -> option A)
  (cache : JsMap.t MarketMetadata) (t : Trade) (y : string)
  (md : MarketMetadata) :
  ticker t = y -> JsMap.get cache y = Some md ->
  detail f (align cache t) = f md.
Proof. intros Ht Hmd. unfold detail. simpl. now rewrite Ht, Hmd. Qed.

Lemma entry_after_last (cache : JsMap.t MarketMetadata)
  (w : AlignedTrade -> bool) (y : string) (r : Market) : forall ts e,
  entry_after cache w y e ts = Some r ->
  match last_on y ts with
  | Some t => last_update r = created_time t
  | None => e = Some r
  end.
Proof.
  induction ts as [|t ts IH]; intros e H; simpl in *; auto.
  apply IH in H. destruct (last_on y ts) as [t'|]; auto.
  destruct (String.eqb (ticker t) y); auto.
  inversion H. now destruct e.
Qed.

(** The last-update time of a rollup is the creation time of the last
    trade on its ticker in the trade sequence. *)
Theorem rollup_last_update (cache : JsMap.t MarketMetadata)
  (ts : list Trade) (y : string) (r : Market) :
  JsMap.get (marketsMap cache ts) y = Some r ->
  exists t, last_on y ts = Some t /\ last_update r = created_time t.
Proof.
  intros Hget. pose proof (marketsMap_resolved _ _ _ Hget) as Hres.
  rewrite marketsMap_get in Hget by assumption.
  apply entry_after_last in Hget.
  destruct (last_on y ts) as [t|]; [eauto | discriminate].
Qed.

Lemma rollup_last_update_witness :
  exists t, last_on "Y" scenario_C_trades = Some t
            /\ "t2" = created_time t.
Proof.
  apply (@rollup_last_update scenario_C_cache scenario_C_trades "Y"
           (update_entry
              (new_entry (align scenario_C_cache (a_trade "Y" 10 60 "t1")) true)
              (align scenario_C_cache (a_trade "Y" 1 60 "t2")) false)).
  reflexivity.
Defined.

(** The descriptive fields of a rollup are those of the details resolved
    for its ticker, with the defaults of the code where the details have
    none; they do not depend on the trades. *)
Theorem rollup_fields_from_details (cache : JsMap.t MarketMetadata)
  (ts : list Trade) (y : string) (md : MarketMetadata) (r : Market) :
  JsMap.get cache y = Some md ->
  JsMap.get (marketsMap cache ts) y = Some r ->
  ticker_symbol r = y
  /\ id r = Js.str_or (md_market_id md) y
  /\ title r = Js.str_or (md_title md) "Unknown Title"
  /\ question r = Js.str_or (md_title md) "Unknown Title"
  /\ category r = Js.str_or (md_category_name md) "Crypto"
  /\ status r = Js.str_or (md_status md) "open"
  /\ cadence r = Js.str_or (md_frequency md) "N/A"
  /\ last_price r = md_last_price md
  /\ volume r = md_volume md
  /\ volume_24h r = md_volume_24h md
  /\ previous_price r = md_previous_price md
  /\ yes_ask r = md_yes_ask md
  /\ yes_bid r = md_yes_bid md
  /\ trending r = true /\ high_liquidity r = true /\ recent r = true.
Proof.
  intros Hmd Hget.
  assert (Hres : JsMap.has cache y = true).
  { apply JsMapFacts.has_get. eauto. }
  rewrite marketsMap_get in Hget by assumption.
  revert Hget.
  apply (@entry_after_inv cache (isWhaleTrade (whaleThreshold cache)) y
           (fun r =>
              ticker_symbol r = y
              /\ id r = Js.str_or (md_market_id md) y
              /\ title r = Js.str_or (md_title md) "Unknown Title"
              /\ question r = Js.str_or (md_title md) "Unknown Title"
              /\ category r = Js.str_or (md_category_name md) "Crypto"
              /\ status r = Js.str_or (md_status md) "open"
              /\ cadence r = Js.str_or (md_frequency md) "N/A"
              /\ last_price r = md_last_price md
              /\ volume r = md_volume md
              /\ volume_24h r = md_volume_24h md
              /\ previous_price r = md_previous_price md
              /\ yes_ask r = md_yes_ask md
              /\ yes_bid r = md_yes_bid md
              /\ trending r = true /\ high_liquidity r = true
              /\ recent r = true)) with (ts := ts) (e := None).
  - intros t b Ht. simpl.
    rewrite !(fun A f => @detail_align A f cache t y md Ht Hmd), Ht.
    repeat split.
  - intros r0 t b Ht H. simpl.
    rewrite !(fun A f => @detail_align A f cache t y md Ht Hmd). tauto.
  - discriminate.
Qed.

Lemma rollup_fields_from_details_witness :
  title (new_entry (align [("X", scenario_A_details)] scenario_A_trade) true)
  = Js.str_or (md_title scenario_A_details) "Unknown Title".
Proof.
  apply (@rollup_fields_from_details [("X", scenario_A_details)]
           [scenario_A_trade] "X" scenario_A_details
           (new_entry (align [("X", scenario_A_details)] scenario_A_trade) true));
    reflexivity.
Defined.

(** ** The threshold as a maximum *)

Lemma fold_max_step_spec (l : list MarketMetadata) : forall a,
  (a <= fold_left max_step l a)%Q
  /\ (forall m, In m l ->
        (marketNotionalVolume24h m <= fold_left max_step l a)%Q)
  /\ (fold_left max_step l a = a
      \/ exists m, In m l
                   /\ fold_left max_step l a = marketNotionalVolume24h m).
Proof.
  induction l as [|m l IH]; intros a; simpl.
  - split; [apply Qle_refl|]. split; [tauto | auto].
  - destruct (IH (max_step a m)) as (H1 & H2 & H3).
    assert (Hstep : (a <= max_step a m)%Q
                    /\ (marketNotionalVolume24h m <= max_step a m)%Q
                    /\ (max_step a m = a
                        \/ max_step a m = marketNotionalVolume24h m)).
    { unfold max_step.
      destruct (Js.gt (marketNotionalVolume24h m) a) eqn:E.
      - apply gt_true_iff in E. repeat split; auto; lra.
      - apply gt_false_iff in E. repeat split; auto; lra. }
    destruct Hstep as (S1 & S2 & S3).
    split; [eapply Qle_trans; eauto|]. split.
    + intros m' [<-|Hin]; [eapply Qle_trans; eauto | auto].
    + destruct H3 as [H3|[m' [Hin H3]]].
      * rewrite H3. destruct S3 as [->| ->]; eauto.
      * right. exists m'. auto.
Qed.

(** The threshold is never negative, it is at least an eighth of the
    24-hour notional of every resolved market, and it is an eighth of the
    notional of one of them unless it is 0. *)
Theorem whaleThreshold_is_eighth_of_leader (cache : JsMap.t MarketMetadata) :
  (0 <= whaleThreshold cache)%Q
  /\ (forall k m, JsMap.get cache k = Some m ->
        (marketNotionalVolume24h m * 0.125 <= whaleThreshold cache)%Q)
  /\ ((whaleThreshold cache == 0)%Q
      \/ exists m, In m (JsMap.values cache)
                   /\ (whaleThreshold cache
                       == marketNotionalVolume24h m * 0.125)%Q).
Proof.
  unfold whaleThreshold, maxNotionalVolume.
  destruct (fold_max_step_spec (JsMap.values cache) 0) as (H1 & H2 & H3).
  split; [lra|]. split.
  - intros k m Hget. apply JsMapFacts.get_In in Hget.
    assert (Hin : In m (JsMap.values cache)).
    { unfold JsMap.values. change m with (snd (k, m)). now apply in_map. }
    specialize (H2 m Hin). lra.
  - destruct H3 as [->|[m [Hin ->]]].
    + left. reflexivity.
    + right. exists m. split; [exact Hin | reflexivity].
Qed.

(** When no resolved market has a positive 24-hour notional the threshold
    is 0, and a trade is then classified as a whale trade exactly when its
    own notional value is positive. *)
Theorem zero_threshold_flags_every_positive_trade
  (cache : JsMap.t MarketMetadata) :
  (forall m, In m (JsMap.values cache) ->
     (marketNotionalVolume24h m <= 0)%Q) ->
  (whaleThreshold cache == 0)%Q
  /\ forall a, isWhaleTrade (whaleThreshold cache) a = true
               <-> (0 < tradeNotionalValue a)%Q.
Proof.
  intros Hquiet.
  assert (Hthr : (whaleThreshold cache == 0)%Q).
  { unfold whaleThreshold, maxNotionalVolume.
    destruct (fold_max_step_spec (JsMap.values cache) 0) as (H1 & _ & H3).
    destruct H3 as [->|[m [Hin H3]]]; [reflexivity|].
    specialize (Hquiet m Hin). rewrite H3 in *. lra. }
  split; [exact Hthr|].
  intros a. unfold isWhaleTrade. rewrite gt_true_iff, Hthr. tauto.
Qed.

Lemma zero_threshold_flags_every_positive_trade_witness :
  isWhaleTrade (whaleThreshold [("X", details "Bitcoin" 5000 0 50)])
    (align [("X", details "Bitcoin" 5000 0 50)] (a_trade "X" 1 1 "t1"))
  = true.
Proof.
  apply (@zero_threshold_flags_every_positive_trade
           [("X", details "Bitcoin" 5000 0 50)]).
  - intros m [<-|[]]. vm_compute. discriminate.
  - reflexivity.
Defined.

(** ** The markets of the response *)

Lemma rollup_has_trade (cache : JsMap.t MarketMetadata) (ts : list Trade)
  (y : string) (r : Market) :
  JsMap.get (marketsMap cache ts) y = Some r ->
  exists t, In t ts /\ ticker t = y.
Proof.
  intros Hget. pose proof (marketsMap_resolved _ _ _ Hget) as Hres.
  apply existsb_ticker.
  destruct (existsb (fun t => String.eqb (ticker t) y) ts) eqn:E; auto.
  rewrite marketsMap_get in Hget by assumption.
  rewrite entry_after_no_trade in Hget by assumption. discriminate.
Qed.

Lemma rollup_title (cache : JsMap.t MarketMetadata) (ts : list Trade)
  (y : string) (md : MarketMetadata) (r : Market) :
  JsMap.get cache y = Some md ->
  JsMap.get (marketsMap cache ts) y = Some r ->
  title r = Js.str_or (md_title md) "Unknown Title".
Proof.
  intros Hmd Hget.
  assert (Hres : JsMap.has cache y = true).
  { apply JsMapFacts.has_get. eauto. }
  rewrite marketsMap_get in Hget by assumption. revert Hget.
  apply (@entry_after_inv cache (isWhaleTrade (whaleThreshold cache)) y
           (fun r => title r = Js.str_or (md_title md) "Unknown Title"))
    with (ts := ts) (e := None).
  - intros t b Ht. simpl. now rewrite (@detail_align _ md_title cache t y md).
  - intros r0 t b Ht H. exact H.
  - discriminate.
Qed.

(** Every market of a cycle's response is backed by a trade of the cycle
    and by details resolved for its ticker; its title is the title of those
    details, which is present, not blank and not the placeholder; and it
    matches a crypto keyword.  A market whose details carry no title is
    never in the response. *)
Theorem response_markets_are_titled (up : Upstream) (r : Market) :
  In r (markets_of (queryFn up)) ->
  let ts := allTrades (paginate up) in
  exists table,
    marketInfoCache (marketTickers ts) (marketInfoResults up (marketTickers ts))
    = returns table
    /\ (exists t, In t ts /\ ticker t = ticker_symbol r)
    /\ (exists md s,
          JsMap.get table (ticker_symbol r) = Some (Some md)
          /\ md_title md = Some s /\ title r = s
          /\ s <> "" /\ Js.trim s <> "" /\ s <> "Unknown Title")
    /\ is_crypto r = true.
Proof.
  intros Hin ts.
  destruct (queryFn_markets up r Hin) as (table & Htable & Hdef & Hin').
  fold ts in Htable, Hin'. exists table. split; [exact Htable|].
  set (cache := records_of table) in *.
  unfold filteredCryptoMarkets in Hin'.
  apply filter_In in Hin'. destruct Hin' as [Hin' Hcrypto].
  apply filter_In in Hin'. destruct Hin' as [Hin' Htitled].
  apply rollup_resolved in Hin'. destruct Hin' as [Hres Hget].
  split; [now apply rollup_has_trade with (cache := cache) (r := r)|].
  split; [|exact Hcrypto].
  apply JsMapFacts.has_get in Hres. destruct Hres as [md Hmd].
  pose proof (@rollup_title cache ts (ticker_symbol r) md r Hmd Hget)
    as Htitle.
  assert (Hraw : JsMap.get table (ticker_symbol r) = Some (Some md)).
  { unfold cache in Hmd. rewrite records_of_get in Hmd by exact Hdef.
    destruct (JsMap.get table (ticker_symbol r)) as [[m|]|];
      congruence. }
  unfold is_titled in Htitled.
  apply andb_true_iff in Htitled. destruct Htitled as [Htitled H3].
  apply andb_true_iff in Htitled. destruct Htitled as [H1 H2].
  apply negb_true_iff, String.eqb_neq in H1, H2, H3.
  exists md. destruct (md_title md) as [s|] eqn:Hs; simpl in Htitle;
    [|congruence].
  destruct (String.eqb_spec s "") as [->|Hne]; [congruence|].
  exists s. rewrite <- Htitle. repeat split; auto.
Qed.

Lemma response_markets_are_titled_witness :
  exists md s,
    JsMap.get [("X", Some scenario_A_details)] "X" = Some (Some md)
    /\ md_title md = Some s /\ "Bitcoin above 100k?" = s
    /\ s <> "" /\ Js.trim s <> "" /\ s <> "Unknown Title".
Proof.
  destruct (@response_markets_are_titled scenario_A_upstream
              (new_entry (align [("X", scenario_A_details)] scenario_A_trade)
                 true))
    as (table & Htable & _ & H & _); [simpl; auto|].
  injection Htable as <-. exact H.
Defined.

(** ** The allow-list of the route and the keyword filter *)

Lemma prefix_app_l (k a b : string) :
  String.prefix k a = true -> String.prefix k (a ++ b) = true.
Proof.
  revert a. induction k as [|c k IH]; intros a H.
  - destruct (a ++ b)%string; reflexivity.
  - destruct a as [|c' a]; simpl in *; [discriminate|].
    destruct (Ascii.ascii_dec c c'); [auto | discriminate].
Qed.

Lemma includes_app_l (a b k : string) :
  Js.includes a k = true -> Js.includes (a ++ b) k = true.
Proof.
  induction a as [|c a IH]; simpl; intros H.
  - rewrite orb_false_r in H. destruct k; [|discriminate].
    destruct b; reflexivity.
  - apply orb_true_iff in H. apply orb_true_iff.
    destruct H as [H|H].
    + left. now apply (prefix_app_l k (String c a) b).
    + right. auto.
Qed.

Lemma prefix_split (p t : string) :
  String.prefix p t = true -> exists rest, t = (p ++ rest)%string.
Proof.
  revert t. induction p as [|c p IH]; intros t H.
  - exists t. reflexivity.
  - destruct t as [|c' t]; simpl in H; [discriminate|].
    destruct (Ascii.ascii_dec c c') as [->|]; [|discriminate].
    destruct (IH t H) as [rest ->]. exists rest. reflexivity.
Qed.

Lemma toLowerCase_app (a b : string) :
  Js.toLowerCase (a ++ b) = (Js.toLowerCase a ++ Js.toLowerCase b)%string.
Proof. induction a as [|c a IH]; simpl; congruence. Qed.

Lemma allowed_prefix_keyword (p : string) :
  In p Route.ALLOWED_TICKER_PREFIXES ->
  exists keyword,
    In keyword cryptoKeywords
    /\ Js.includes (Js.toLowerCase p) keyword = true.
Proof.
  unfold Route.ALLOWED_TICKER_PREFIXES. simpl.
  intros H.
  repeat (destruct H as [<-|H];
          [ first
              [ exists "btc"; split; [simpl; tauto | reflexivity]
              | exists "eth"; split; [simpl; tauto | reflexivity]
              | exists "sol"; split; [simpl; tauto | reflexivity]
              | exists "crypto"; split; [simpl; tauto | reflexivity]
              | exists "bch"; split; [simpl; tauto | reflexivity]
              | exists "ada"; split; [simpl; tauto | reflexivity]
              | exists "matic"; split; [simpl; tauto | reflexivity]
              | exists "dot"; split; [simpl; tauto | reflexivity]
              | exists "link"; split; [simpl; tauto | reflexivity]
              | exists "ltc"; split; [simpl; tauto | reflexivity]
              | exists "xrp"; split; [simpl; tauto | reflexivity] ]
          | ]).
  destruct H.
Qed.

(** A rollup whose ticker passes the allow-list of the market route
    always passes the crypto keyword filter of the cycle: each allowed
    prefix contains one of the keywords. *)
Theorem allowed_ticker_is_crypto (m : Market) :
  existsb (Js.startsWith (ticker_symbol m)) Route.ALLOWED_TICKER_PREFIXES
  = true ->
  is_crypto m = true.
Proof.
  intros H. apply existsb_exists in H. destruct H as [p [Hp Hstart]].
  unfold Js.startsWith in Hstart.
  destruct (prefix_split _ _ Hstart) as [rest Hrest].
  destruct (@allowed_prefix_keyword p Hp) as [keyword [Hk Hinc]].
  unfold is_crypto. apply existsb_exists. exists keyword. split; auto.
  apply orb_true_iff. left.
  rewrite Hrest, toLowerCase_app. now apply includes_app_l.
Qed.

Lemma allowed_ticker_is_crypto_witness :
  is_crypto (new_entry (align [] (a_trade "KXBTC-25" 1 50 "t1")) false)
  = true.
Proof.
  apply allowed_ticker_is_crypto. reflexivity.
Defined.

(** ** Alerts and whale trades *)

(** The alerts of a cycle are the signals of the flagged markets of its
    response, and behind every flagged market there is a trade of the cycle
    on its ticker whose notional value exceeds the threshold. *)
Theorem alerts_are_whale_markets (up : Upstream) :
  let ts := allTrades (paginate up) in
  (forall a,
     In a (WhaleAlerts.whaleAlerts (data (useAlignedMarkets up)))
     <-> exists m, In m (markets_of (queryFn up))
                   /\ high_volume m = true
                   /\ a = WhaleAlerts.to_signal m)
  /\ (forall m,
        In m (markets_of (queryFn up)) -> high_volume m = true ->
        exists table,
          marketInfoCache (marketTickers ts)
            (marketInfoResults up (marketTickers ts)) = returns table
          /\ has_undefined table = false
          /\ let cache := records_of table in
             exists t, In t ts /\ ticker t = ticker_symbol m
                       /\ (whaleThreshold cache
                           < tradeNotionalValue (align cache t))%Q).
Proof.
  intros ts. split.
  - intros a. unfold WhaleAlerts.whaleAlerts, useAlignedMarkets.
    destruct (queryFn up) as [response|]; cbn [data markets_of];
      rewrite in_map_iff.
    + split.
      * intros [m [Ha Hin]]. apply filter_In in Hin.
        destruct Hin as [Hin Hf]. exists m. auto.
      * intros [m [Hin [Hf Ha]]]. exists m. split; auto.
        apply filter_In. auto.
    + split.
      * intros [m [_ []]].
      * intros [m [[] _]].
  - intros m Hin Hflag.
    destruct (queryFn_markets up m Hin) as (table & Htable & Hdef & Hin').
    fold ts in Htable, Hin'. exists table.
    split; [exact Htable|]. split; [exact Hdef|]. cbv zeta.
    set (cache := records_of table) in *.
    apply In_filteredCryptoMarkets in Hin'.
    apply rollup_resolved in Hin'. destruct Hin' as [Hres Hget].
    pose proof (@marketsMap_flag cache ts (ticker_symbol m) Hres) as Hw.
    rewrite Hget in Hw. simpl in Hw. rewrite Hflag in Hw.
    symmetry in Hw. unfold whale_on in Hw.
    apply existsb_exists in Hw. destruct Hw as [t [Ht Hw]].
    apply andb_true_iff in Hw. destruct Hw as [Heq Hw].
    exists t. split; auto. split; [now apply String.eqb_eq|].
    now apply gt_true_iff.
Qed.

(** * Further properties of the proxy routes *)

(** ** The market route *)

(** What [NextResponse.json] does with a status. *)
Lemma respond_eq (J : Type) (status : nat) (body : Route.Body J)
  (log : list string) :
  Route.respond status body log
  = (if Route.carries_body status
     then fulfilled {| Route.nr_status := status; Route.nr_body := body |}
     else rejected, log).
Proof.
  unfold Route.respond. destruct (Route.carries_body status); reflexivity.
Qed.

(** An ok status that carries a body is not the status of a failure
    answer, and the status 500 of the [catch] is not ok. *)
Lemma relayed_status_not_ok (status : nat) :
  Route.ok status = false ->
  Route.ok (if Route.carries_body status then status else 500) = false.
Proof. intros H. now destruct (Route.carries_body status). Qed.

Section MarketRoute.
Variable J : Type.
Variable upstream : string -> Settled (Route.Response J).
Variable ticker : string.

(** The scope-restricted route never throws; it fetches the market of the
    ticker once when the ticker is not empty and on the allow-list, and
    nothing at all otherwise, when it answers 400 (no ticker) or 422 (not
    on the list). *)
Theorem GET_guards (log : list string) :
  exists res,
    Route.GET upstream ticker log
    = (fulfilled res,
       if route_admits ticker then log ++ [Route.markets_url ticker] else log)
    /\ (ticker = "" -> Route.nr_status res = 400)
    /\ (ticker <> "" -> route_admits ticker = false -> Route.nr_status res = 422).
Proof.
  unfold route_admits, Route.GET.
  destruct (String.eqb_spec ticker "") as [Hempty|Hne]; cbn [negb andb].
  - eexists. split; [reflexivity|]. split; [reflexivity | tauto].
  - destruct (existsb (Js.startsWith ticker) Route.ALLOWED_TICKER_PREFIXES);
      cbn [negb].
    + unfold Route.try_catch, Route.bind, Route.fetch.
      generalize (Route.markets_url ticker). intros url.
      destruct (upstream url) as [r|].
      * destruct (Route.ok (Route.status r)).
        -- unfold Route.json_of. destruct (Route.json r);
             (eexists; split; [reflexivity|]; split; [tauto | discriminate]).
        -- unfold Route.failed_to_fetch. rewrite respond_eq.
           destruct (Route.carries_body (Route.status r));
             (eexists; split; [reflexivity|]; split; [tauto | discriminate]).
      * eexists. split; [reflexivity|]. split; [tauto | discriminate].
    + eexists. split; [reflexivity|]. split; [tauto | reflexivity].
Qed.

(** The scope-restricted route answers with an ok status exactly when the
    ticker passes the guards and the upstream answers its market with an ok
    status and a JSON body; the answer is then 200 with that body, passed
    through unchanged.  When the upstream answers with a status that is not
    ok, the route answers with the same status if a response with a body
    can carry it; if not (304, or a status outside 200-599) building the
    answer throws and the route answers 500. *)
Theorem GET_passes_through (res : Route.NextResponse J) (log' : list string) :
  Route.GET upstream ticker [] = (fulfilled res, log') ->
  (Route.ok (Route.nr_status res) = true
   <-> route_admits ticker = true
       /\ exists r d,
            upstream (Route.markets_url ticker) = fulfilled r
            /\ Route.ok (Route.status r) = true
            /\ Route.json r = Some d
            /\ res = {| Route.nr_status := 200;
                        Route.nr_body := Route.Data d |})
  /\ (forall r,
        route_admits ticker = true ->
        upstream (Route.markets_url ticker) = fulfilled r ->
        Route.ok (Route.status r) = false ->
        Route.nr_status res
        = if Route.carries_body (Route.status r)
          then Route.status r else 500).
Proof.
  unfold route_admits, Route.GET.
  destruct (String.eqb_spec ticker "") as [Hempty|Hne]; cbn [negb andb].
  - intros [= <- <-]. split; [|discriminate].
    split; [discriminate | intros [? _]; discriminate].
  - destruct (existsb (Js.startsWith ticker) Route.ALLOWED_TICKER_PREFIXES);
      cbn [negb].
    + unfold Route.try_catch, Route.bind, Route.fetch.
      generalize (Route.markets_url ticker). intros url.
      destruct (upstream url) as [r|] eqn:Hup.
      * destruct (Route.ok (Route.status r)) eqn:Hok.
        -- unfold Route.json_of. destruct (Route.json r) as [d|] eqn:Hjson.
           ++ intros [= <- <-]. split.
              ** split; [|reflexivity]. intros _. split; auto.
                 exists r, d. auto.
              ** intros r' _ [= <-] Hok'. congruence.
           ++ intros [= <- <-]. split.
              ** split; [discriminate|].
                 intros [_ [r' [d [[= <-] [_ [Hj _]]]]]]. congruence.
              ** intros r' _ [= <-] Hok'. congruence.
        -- unfold Route.failed_to_fetch. rewrite respond_eq.
           destruct (Route.carries_body (Route.status r)) eqn:Hcb;
             (intros [= <- <-]; split;
              [ split;
                [ intros Hres; simpl in Hres;
                  first [congruence | vm_compute in Hres; discriminate]
                | intros [_ [r' [d [[= <-] [Hok' _]]]]]; congruence ]
              | intros r' _ [= <-] _; rewrite Hcb; reflexivity ]).
      * intros [= <- <-]. split.
        -- split; [discriminate|].
           intros [_ [r' [d [Hr _]]]]. discriminate.
        -- intros r' _ Hr. discriminate.
    + intros [= <- <-]. split; [|discriminate].
      split; [discriminate | intros [? _]; discriminate].
Qed.
End MarketRoute.

Lemma GET_passes_through_witness :
  Route.nr_status
    {| Route.nr_status := 500;
       Route.nr_body :=
         Route.Failure (J := LookupResponse) "Internal Server Error" None |}
  = if Route.carries_body 304 then 304 else 500.
Proof.
  apply (proj2
           (@GET_passes_through LookupResponse not_modified "KXBTC-25"
              {| Route.nr_status := 500;
                 Route.nr_body := Route.Failure "Internal Server Error" None |}
              [Route.markets_url "KXBTC-25"]
              (eq_refl _))
           {| Route.status := 304; Route.json := None; Route.text := "" |});
    reflexivity.
Defined.

(** ** The earlier revision of the market route *)

Lemma urls_differ (ticker : string) :
  Route.markets_url ticker <> Route.events_url ticker.
Proof.
  unfold Route.markets_url, Route.events_url, Route.KALSHI_API_BASE.
  simpl. discriminate.
Qed.

Section EarlierRoute.
Variable J : Type.
Variable upstream : string -> Settled (Route.Response J).
Variable ticker : string.

(** The route with the event fallback never throws and fetches at most
    twice; the event is fetched only after the market was answered with
    404; after any other failing status nothing more is fetched, and the
    route's answer has that status if a response with a body can carry it
    and the status 500 of the [catch] if not (304, or a status outside
    200-599). *)
Theorem GET_event_fallback_bounded :
  exists res log,
    Route.GET_event_fallback upstream ticker [] = (fulfilled res, log)
    /\ List.length log <= 2
    /\ (In (Route.events_url ticker) log ->
        exists r, upstream (Route.markets_url ticker) = fulfilled r
                  /\ Route.status r = 404)
    /\ (forall r,
          ticker <> "" ->
          upstream (Route.markets_url ticker) = fulfilled r ->
          Route.ok (Route.status r) = false ->
          Route.status r <> 404 ->
          log = [Route.markets_url ticker]
          /\ Route.nr_status res
             = if Route.carries_body (Route.status r)
               then Route.status r else 500).
Proof.
  pose proof (@urls_differ ticker) as Hurls.
  unfold Route.GET_event_fallback.
  destruct (String.eqb_spec ticker "") as [Hempty|Hne].
  { do 2 eexists. split; [reflexivity|]. split; [simpl; lia|].
    split; [intros [] | tauto]. }
  unfold Route.try_catch, Route.bind, Route.fetch.
  destruct (upstream (Route.markets_url ticker)) as [r|] eqn:Hm.
  2:{ do 2 eexists. split; [reflexivity|]. split; [simpl; lia|].
      split; [|discriminate].
      intros [H|[]]. congruence. }
  destruct (Route.ok (Route.status r)) eqn:Hok.
  { unfold Route.json_of.
    destruct (Route.json r);
      (do 2 eexists; split; [reflexivity|]; split; [simpl; lia|];
       split; [intros [H|[]]; congruence |];
       intros r' _ [= <-] Hok' _; congruence). }
  destruct (Nat.eqb_spec (Route.status r) 404) as [H404|Hnot].
  - destruct (upstream (Route.events_url ticker)) as [e|] eqn:He.
    + destruct (Route.ok (Route.status e)) eqn:Heok.
      * unfold Route.json_of.
        destruct (Route.json e);
          (do 2 eexists; split; [reflexivity|]; split; [simpl; lia|];
           split; [intros _; eauto |];
           intros r' _ [= <-] _ Hn; congruence).
      * unfold Route.failed_to_fetch. rewrite respond_eq.
        destruct (Route.carries_body (Route.status e));
          (do 2 eexists; split; [reflexivity|]; split; [simpl; lia|];
           split; [intros _; eauto |];
           intros r' _ [= <-] _ Hn; congruence).
    + do 2 eexists. split; [reflexivity|]. split; [simpl; lia|].
      split; [intros _; eauto |].
      intros r' _ [= <-] _ Hn; congruence.
  - unfold Route.failed_to_fetch. rewrite respond_eq.
    destruct (Route.carries_body (Route.status r)) eqn:Hcb;
      (do 2 eexists; split; [reflexivity|]; split; [simpl; lia|];
       split; [intros [H|[]]; congruence |];
       intros r' _ [= <-] _ _; rewrite Hcb; split; reflexivity).
Qed.

(** For a ticker that passes its guards the scope-restricted route
    answers as the earlier revision does, with the same fetches, whenever
    the upstream does not answer the market with 404. *)
Theorem routes_agree_without_404 (log : list string) :
  route_admits ticker = true ->
  (forall r, upstream (Route.markets_url ticker) = fulfilled r ->
             Route.status r <> 404) ->
  Route.GET upstream ticker log = Route.GET_event_fallback upstream ticker log.
Proof.
  unfold route_admits. intros Hadm Hnot.
  apply andb_true_iff in Hadm. destruct Hadm as [Hne Hallowed].
  apply negb_true_iff in Hne.
  unfold Route.GET, Route.GET_event_fallback. rewrite Hne, Hallowed.
  cbn [negb]. unfold Route.try_catch, Route.bind, Route.fetch.
  destruct (upstream (Route.markets_url ticker)) as [r|] eqn:Hm; auto.
  destruct (Route.ok (Route.status r)); auto.
  destruct (Nat.eqb_spec (Route.status r) 404) as [H404|_]; auto.
  exfalso. now apply (Hnot r).
Qed.
End EarlierRoute.

Lemma GET_event_fallback_bounded_witness :
  exists res log,
    Route.GET_event_fallback event_only "KXBTC-25" [] = (fulfilled res, log)
    /\ List.length log <= 2.
Proof.
  destruct (GET_event_fallback_bounded event_only "KXBTC-25")
    as (res & log & H1 & H2 & _).
  exists res, log. split; assumption.
Defined.

Lemma routes_agree_without_404_witness :
  Route.GET market_only "KXBTC-25" []
  = Route.GET_event_fallback market_only "KXBTC-25" [].
Proof.
  apply routes_agree_without_404.
  - reflexivity.
  - intros r. unfold market_only. simpl. intros [= <-]. discriminate.
Defined.

(** ** The markets listing route *)

Section MarketsListing.
Variables M D : Type.
Variable ticker_symbol_of : M -> option string.
Variable title_of : M -> option string.
Variable upstream : string -> Settled (Route.Response (MarketsRoute.Data M D)).
Variables status limit : option string.

(** The listing route never throws and fetches the listing once.  When it
    answers with a listing, the status is 200, the markets are those of the
    upstream body that match a keyword, in the same order, [count] is
    their number and the other properties of the body are passed through.
    An ok upstream body without [markets] gives the answer 500. *)
Theorem markets_listing :
  let url := MarketsRoute.listing_url status limit in
  exists res,
    MarketsRoute.GET ticker_symbol_of title_of upstream status limit []
    = (fulfilled res, [url])
    /\ (forall l,
          Route.nr_body res = Route.Data l ->
          Route.nr_status res = 200
          /\ MarketsRoute.listing_count l
             = List.length (MarketsRoute.listing_markets l)
          /\ (forall m, In m (MarketsRoute.listing_markets l) ->
                MarketsRoute.is_crypto_market ticker_symbol_of title_of m
                = true)
          /\ exists r data ms,
               upstream url = fulfilled r
               /\ Route.json r = Some data
               /\ MarketsRoute.data_markets data = Some ms
               /\ MarketsRoute.listing_markets l
                  = filter (MarketsRoute.is_crypto_market
                              ticker_symbol_of title_of) ms
               /\ MarketsRoute.listing_other l
                  = MarketsRoute.data_other data)
    /\ (forall r data,
          upstream url = fulfilled r ->
          Route.ok (Route.status r) = true ->
          Route.json r = Some data ->
          MarketsRoute.data_markets data = None ->
          Route.nr_status res = 500).
Proof.
  intros url. unfold MarketsRoute.GET.
  unfold Route.try_catch, Route.bind, Route.fetch. fold url.
  destruct (upstream url) as [r|] eqn:Hup.
  2:{ eexists. split; [reflexivity|]. split; [discriminate|].
      intros r data Hr. discriminate. }
  destruct (Route.ok (Route.status r)) eqn:Hok; cbn [negb].
  2:{ rewrite respond_eq.
      destruct (Route.carries_body (Route.status r));
        (eexists; split; [reflexivity|]; split; [discriminate|];
         intros r' data [= <-] Hok'; congruence). }
  unfold Route.json_of. destruct (Route.json r) as [data|] eqn:Hjson.
  2:{ eexists. split; [reflexivity|]. split; [discriminate|].
      intros r' data [= <-] _ Hj. congruence. }
  destruct (MarketsRoute.data_markets data) as [ms|] eqn:Hms.
  - eexists. split; [reflexivity|]. split.
    + intros l [= <-]. split; [reflexivity|]. split; [reflexivity|].
      split.
      * intros m Hin. apply filter_In in Hin. tauto.
      * exists r, data, ms. auto.
    + intros r' data' [= <-] _ Hj Hnone. congruence.
  - eexists. split; [reflexivity|]. split; [discriminate|].
    intros. reflexivity.
Qed.
End MarketsListing.

Lemma lowered_Some (s : string) :
  MarketsRoute.lowered (Some s) = Js.toLowerCase s.
Proof.
  unfold MarketsRoute.lowered. simpl.
  now destruct (String.eqb_spec (Js.toLowerCase s) "") as [->|].
Qed.

(** The keywords of the listing route are among those of the refresh
    cycle: a market that the listing route would keep also passes the
    cycle's keyword filter. *)
Theorem listed_market_passes_cycle_filter (m : Market) :
  MarketsRoute.is_crypto_market
    (fun x => Some (ticker_symbol x)) (fun x => Some (title x)) m = true ->
  is_crypto m = true.
Proof.
  unfold MarketsRoute.is_crypto_market, is_crypto.
  rewrite !lowered_Some, !existsb_exists.
  intros [keyword [Hin Hmatch]]. exists keyword. split; auto.
  unfold MarketsRoute.cryptoKeywords in Hin. unfold cryptoKeywords.
  simpl in *. intuition.
Qed.

Lemma listed_market_passes_cycle_filter_witness :
  is_crypto (new_entry (align [("X", scenario_A_details)] scenario_A_trade)
               true) = true.
Proof.
  apply listed_market_passes_cycle_filter. reflexivity.
Defined.

(** ** The trades route *)

Section TradesProxy.
Variable J : Type.
Variable upstream : string -> Settled (Route.Response J).
Variable method : string.
Variables limit cursor : option string.

(** The trades route never throws.  It answers OPTIONS with 200 without
    any fetch; otherwise it fetches the trades URL once and answers 200
    with the upstream body exactly when the upstream answers with an ok
    status and JSON.  When the upstream's status is not ok, the answer has
    that status if a response with a body can carry it, and the status 500
    of the [catch] if not (304, or a status outside 200-599). *)
Theorem trades_proxy :
  let url := TradesRoute.kalshiUrl limit cursor in
  exists res log,
    TradesRoute.GET upstream method limit cursor [] = (fulfilled res, log)
    /\ (method = "OPTIONS" ->
        log = []
        /\ res = {| Route.nr_status := 200; Route.nr_body := Route.Data None |})
    /\ (method <> "OPTIONS" ->
        log = [url]
        /\ (Route.ok (Route.nr_status res) = true
            <-> exists r d,
                  upstream url = fulfilled r
                  /\ Route.ok (Route.status r) = true
                  /\ Route.json r = Some d
                  /\ res = {| Route.nr_status := 200;
                              Route.nr_body := Route.Data (Some d) |})
        /\ (forall r,
              upstream url = fulfilled r ->
              Route.ok (Route.status r) = false ->
              Route.nr_status res
              = if Route.carries_body (Route.status r)
                then Route.status r else 500)).
Proof.
  intros url. unfold TradesRoute.GET.
  destruct (String.eqb_spec method "OPTIONS") as [Hopt|Hne].
  { do 2 eexists. split; [reflexivity|]. split; [auto | tauto]. }
  unfold Route.try_catch, Route.bind, Route.fetch. fold url.
  destruct (upstream url) as [r|] eqn:Hup.
  2:{ do 2 eexists. split; [reflexivity|]. split; [tauto|].
      intros _. split; [reflexivity|]. split; [|discriminate].
      split; [discriminate|]. intros [r [d [Hr _]]]. discriminate. }
  destruct (Route.ok (Route.status r)) eqn:Hok; cbn [negb].
  - unfold Route.json_of. destruct (Route.json r) as [d|] eqn:Hjson.
    + do 2 eexists. split; [reflexivity|]. split; [tauto|].
      intros _. split; [reflexivity|]. split.
      * split; [|reflexivity]. intros _. exists r, d. auto.
      * intros r' [= <-] Hok'. congruence.
    + do 2 eexists. split; [reflexivity|]. split; [tauto|].
      intros _. split; [reflexivity|]. split.
      * split; [discriminate|].
        intros [r' [d [[= <-] [_ [Hj _]]]]]. congruence.
      * intros r' [= <-] Hok'. congruence.
  - rewrite respond_eq.
    destruct (Route.carries_body (Route.status r)) eqn:Hcb;
      (do 2 eexists; split; [reflexivity|]; split; [tauto|];
       intros _; split; [reflexivity|]; split;
       [ split;
         [ intros Hres; simpl in Hres;
           first [congruence | vm_compute in Hres; discriminate]
         | intros [r' [d [[= <-] [Hok' _]]]]; congruence ]
       | intros r' [= <-] _; rewrite Hcb; reflexivity ]).
Qed.
End TradesProxy.

(** * Properties of the views *)

(** ** Paging of the markets tab *)

Section Paging.
Variable A : Type.

Lemma firstn_min_length (n : nat) (l : list A) :
  firstn (Nat.min n (List.length l)) l = firstn n l.
Proof.
  destruct (Nat.le_ge_cases n (List.length l)) as [H|H].
  - now rewrite Nat.min_l.
  - rewrite Nat.min_r by assumption.
    now rewrite firstn_all, firstn_all2.
Qed.

(** Page [i + 1] holds the eight entries after the first [8 * i]. *)
Lemma paginatedMarkets_eq (l : list A) (i : nat) :
  MarketTab.paginatedMarkets l (Z.of_nat (S i))
  = firstn 8 (skipn (8 * i) l).
Proof.
  unfold MarketTab.paginatedMarkets, MarketTab.slice, MarketTab.ITEMS_PER_PAGE.
  set (len := List.length l).
  replace ((Z.of_nat (S i) - 1) * 8)%Z with (Z.of_nat (8 * i)) by lia.
  destruct (Z.ltb_spec (Z.of_nat (8 * i)) 0) as [Hneg|_]; [lia|].
  destruct (Z.ltb_spec (Z.of_nat (8 * i) + 8) 0) as [Hneg|_]; [lia|].
  destruct (Nat.le_gt_cases (8 * i) len) as [Hin|Hout].
  - rewrite (Z.min_l (Z.of_nat (8 * i))) by lia.
    rewrite Nat2Z.id.
    replace (Z.to_nat (Z.min (Z.of_nat (8 * i) + 8) (Z.of_nat len)
                       - Z.of_nat (8 * i)))
      with (Nat.min 8 (List.length (skipn (8 * i) l))).
    + apply firstn_min_length.
    + rewrite length_skipn. fold len. lia.
  - rewrite (Z.min_r (Z.of_nat (8 * i))) by lia.
    rewrite Nat2Z.id. unfold len. rewrite skipn_all.
    rewrite (skipn_all2 l) by (fold len; lia).
    now rewrite !firstn_nil.
Qed.

Lemma totalPages_nat (l : list A) :
  exists k, MarketTab.totalPages l = Z.of_nat k
            /\ List.length l <= 8 * k
            /\ 8 * k < List.length l + 8.
Proof.
  unfold MarketTab.totalPages, MarketTab.ITEMS_PER_PAGE.
  set (n := Z.of_nat (List.length l)).
  exists (Z.to_nat (- (- n / 8))).
  assert (Hn : (0 <= n)%Z) by (unfold n; lia).
  pose proof (Z.div_mod (- n) 8 ltac:(lia)) as Hdm.
  pose proof (Z.mod_pos_bound (- n) 8 ltac:(lia)) as Hmod.
  assert (H0 : (0 <= - (- n / 8))%Z) by lia.
  split; [lia|]. unfold n in *. lia.
Qed.

Lemma chunks_concat (k : nat) : forall l : list A,
  List.length l <= 8 * k ->
  flat_map (fun i => firstn 8 (skipn (8 * i) l)) (seq 0 k) = l.
Proof.
  induction k as [|k IH]; intros l Hlen.
  - destruct l; [reflexivity | simpl in Hlen; lia].
  - cbn [seq flat_map]. rewrite <- seq_shift, flat_map_concat_map, map_map.
    rewrite <- flat_map_concat_map.
    rewrite (flat_map_ext _ (fun i => firstn 8 (skipn (8 * i) (skipn 8 l)))).
    + rewrite IH by (rewrite length_skipn; lia).
      replace (8 * 0) with 0 by lia. cbn [skipn].
      apply firstn_skipn.
    + intros i. rewrite skipn_skipn. f_equal. f_equal. lia.
Qed.

(** The pages 1 .. [totalPages] hold every entry exactly once, in order:
    put one after the other they give the list back. *)
Theorem pages_partition (l : list A) :
  flat_map (MarketTab.paginatedMarkets l)
    (MarketTab.pages (MarketTab.totalPages l))
  = l.
Proof.
  destruct (totalPages_nat l) as (k & Hk & Hlen & _).
  unfold MarketTab.pages. rewrite Hk, Nat2Z.id.
  rewrite flat_map_concat_map, map_map, <- flat_map_concat_map.
  rewrite (flat_map_ext _ (fun i => firstn 8 (skipn (8 * i) l))).
  - now apply chunks_concat.
  - intros i. apply paginatedMarkets_eq.
Qed.

(** A page within 1 .. [totalPages] is never empty and holds at most
    eight entries, exactly eight unless it is the last; a page after the
    last is empty. *)
Theorem page_sizes (l : list A) (p : Z) :
  (1 <= p)%Z ->
  let page := MarketTab.paginatedMarkets l p in
  List.length page <= 8
  /\ ((p <= MarketTab.totalPages l)%Z -> 1 <= List.length page)
  /\ ((p < MarketTab.totalPages l)%Z -> List.length page = 8)
  /\ ((MarketTab.totalPages l < p)%Z -> page = []).
Proof.
  intros Hp page. destruct (totalPages_nat l) as (k & Hk & Hlen & Hlast).
  assert (Hpi : p = Z.of_nat (S (Z.to_nat (p - 1)))) by lia.
  set (i := Z.to_nat (p - 1)) in *.
  assert (Hlength : List.length page = Nat.min 8 (List.length l - 8 * i)).
  { unfold page. rewrite Hpi, paginatedMarkets_eq.
    now rewrite length_firstn, length_skipn. }
  rewrite Hk. split; [lia|]. split; [lia|]. split; [lia|].
  intros Hout. apply length_zero_iff_nil. lia.
Qed.

(** From a page within 1 .. [totalPages] the two handlers lead to a page
    within 1 .. [totalPages]: the next one and the one before, or the same
    page at the two ends. *)
Theorem page_handlers_stay_in_range (l : list A) (p : Z) :
  (1 <= p <= MarketTab.totalPages l)%Z ->
  let next := MarketTab.handleNextPage l p in
  let previous := MarketTab.handlePreviousPage p in
  (1 <= next <= MarketTab.totalPages l)%Z
  /\ (1 <= previous <= MarketTab.totalPages l)%Z
  /\ next = (if (p <? MarketTab.totalPages l)%Z then p + 1 else p)%Z
  /\ previous = (if (1 <? p)%Z then p - 1 else p)%Z
  /\ MarketTab.paginatedMarkets l next <> []
  /\ MarketTab.paginatedMarkets l previous <> [].
Proof.
  intros Hp next previous.
  assert (Hnext : (1 <= next <= MarketTab.totalPages l)%Z).
  { unfold next, MarketTab.handleNextPage. lia. }
  assert (Hprev : (1 <= previous <= MarketTab.totalPages l)%Z).
  { unfold previous, MarketTab.handlePreviousPage. lia. }
  assert (Hnonempty : forall q, (1 <= q <= MarketTab.totalPages l)%Z ->
            MarketTab.paginatedMarkets l q <> []).
  { intros q [Hq1 Hq2] Hnil.
    destruct (totalPages_nat l) as (k & Hk & Hlen & Hlast).
    assert (Hqi : q = Z.of_nat (S (Z.to_nat (q - 1)))) by lia.
    rewrite Hqi, paginatedMarkets_eq in Hnil.
    apply (f_equal (@List.length A)) in Hnil.
    rewrite length_firstn, length_skipn in Hnil.
    cbn [List.length] in Hnil. lia. }
  split; [exact Hnext|]. split; [exact Hprev|].
  split.
  { unfold next, MarketTab.handleNextPage.
    destruct (Z.ltb_spec p (MarketTab.totalPages l)); lia. }
  split.
  { unfold previous, MarketTab.handlePreviousPage.
    destruct (Z.ltb_spec 1 p); lia. }
  split; auto.
Qed.
End Paging.

Lemma page_sizes_witness :
  List.length (MarketTab.paginatedMarkets (seq 0 19) 2) = 8.
Proof.
  apply (@page_sizes nat (seq 0 19) 2); [lia | reflexivity].
Defined.

Lemma page_handlers_stay_in_range_witness :
  MarketTab.handleNextPage (seq 0 19) 3 = 3%Z
  /\ MarketTab.handlePreviousPage 3 = 2%Z.
Proof.
  destruct (@page_handlers_stay_in_range nat (seq 0 19) 3)
    as (_ & _ & Hn & Hp & _); [vm_compute; split; discriminate|].
  split; [exact Hn | exact Hp].
Defined.

(** ** Relative times *)

(** [formatRelativeTime] picks the largest unit that the elapsed time
    fills and shows the whole number of such units: seconds below a minute
    (for a date in the future too, with a negative count, however far it
    lies ahead), minutes below an hour, hours below a day, days from then
    on.  An invalid date gives "NaNd ago". *)
Theorem formatRelativeTime_units (now past : Z) :
  let d := (now - past)%Z in
  let shown := Utils.formatRelativeTime now (Some past) in
  ((d < 60000)%Z ->
     shown = (Utils.render (Some (d / 1000)%Z) ++ "s ago")%string
     /\ (d / 1000 < 60)%Z /\ ((d < 0)%Z -> (d / 1000 < 0)%Z))
  /\ ((60000 <= d < 3600000)%Z ->
        shown = (Utils.render (Some (d / 60000)%Z) ++ "m ago")%string
        /\ (1 <= d / 60000 < 60)%Z)
  /\ ((3600000 <= d < 86400000)%Z ->
        shown = (Utils.render (Some (d / 3600000)%Z) ++ "h ago")%string
        /\ (1 <= d / 3600000 < 24)%Z)
  /\ ((86400000 <= d)%Z ->
        shown = (Utils.render (Some (d / 86400000)%Z) ++ "d ago")%string
        /\ (1 <= d / 86400000)%Z)
  /\ Utils.formatRelativeTime now None = "NaNd ago".
Proof.
  intros d shown.
  assert (Emin : (d / 1000 / 60 = d / 60000)%Z)
    by (rewrite Z.div_div by lia; reflexivity).
  assert (Ehour : (d / 1000 / 60 / 60 = d / 3600000)%Z)
    by (rewrite !Z.div_div by lia; reflexivity).
  assert (Eday : (d / 1000 / 60 / 60 / 24 = d / 86400000)%Z)
    by (rewrite !Z.div_div by lia; reflexivity).
  assert (Hshown :
    shown
    = (if (d / 1000 <? 60)%Z
       then Utils.render (Some (d / 1000)%Z) ++ "s ago"
       else if (d / 60000 <? 60)%Z
       then Utils.render (Some (d / 60000)%Z) ++ "m ago"
       else if (d / 3600000 <? 24)%Z
       then Utils.render (Some (d / 3600000)%Z) ++ "h ago"
       else Utils.render (Some (d / 86400000)%Z) ++ "d ago")%string).
  { unfold shown, Utils.formatRelativeTime, Utils.floor_div, Utils.lt.
    fold d. now rewrite Eday, Ehour, Emin. }
  pose proof (Z.div_mod d 1000 ltac:(lia)) as D1.
  pose proof (Z.mod_pos_bound d 1000 ltac:(lia)) as M1.
  pose proof (Z.div_mod d 60000 ltac:(lia)) as D2.
  pose proof (Z.mod_pos_bound d 60000 ltac:(lia)) as M2.
  pose proof (Z.div_mod d 3600000 ltac:(lia)) as D3.
  pose proof (Z.mod_pos_bound d 3600000 ltac:(lia)) as M3.
  pose proof (Z.div_mod d 86400000 ltac:(lia)) as D4.
  pose proof (Z.mod_pos_bound d 86400000 ltac:(lia)) as M4.
  rewrite Hshown.
  split.
  { intros H. destruct (Z.ltb_spec (d / 1000) 60); [|lia].
    split; [reflexivity|]. split; lia. }
  split.
  { intros H. destruct (Z.ltb_spec (d / 1000) 60); [lia|].
    destruct (Z.ltb_spec (d / 60000) 60); [|lia].
    split; [reflexivity | lia]. }
  split.
  { intros H. destruct (Z.ltb_spec (d / 1000) 60); [lia|].
    destruct (Z.ltb_spec (d / 60000) 60); [lia|].
    destruct (Z.ltb_spec (d / 3600000) 24); [|lia].
    split; [reflexivity | lia]. }
  split; [|reflexivity].
  intros H. destruct (Z.ltb_spec (d / 1000) 60); [lia|].
  destruct (Z.ltb_spec (d / 60000) 60); [lia|].
  destruct (Z.ltb_spec (d / 3600000) 24); [lia|].
  split; [reflexivity | lia].
Qed.

(** A date one day ahead is shown in seconds. *)
Example formatRelativeTime_future :
  Utils.formatRelativeTime 0 (Some 86400000%Z) = "-86400s ago".
Proof. reflexivity. Qed.

(** ** The sentiment score *)

Lemma Qle_bool_false (a b : Q) : Qle_bool a b = false -> (b < a)%Q.
Proof.
  intros H. apply Qnot_le_lt. intros Hle.
  apply Qle_bool_iff in Hle. congruence.
Qed.

Lemma clamp_bounds (lo hi x : Q) :
  (lo <= hi)%Q ->
  exists c,
    Sentiment.max (Sentiment.num lo)
      (Sentiment.min (Sentiment.num hi) (Some x)) = Some c
    /\ (lo <= c)%Q /\ (c <= hi)%Q.
Proof.
  intros Hlohi. unfold Sentiment.max, Sentiment.min, Sentiment.num.
  cbn [Sentiment.lift2].
  destruct (Qle_bool hi x) eqn:E1.
  - apply Qle_bool_iff in E1.
    destruct (Qle_bool lo hi) eqn:E2.
    + exists hi. split; auto. split; [auto | apply Qle_refl].
    + apply Qle_bool_false in E2. exists lo. split; auto.
      split; [apply Qle_refl | auto].
  - apply Qle_bool_false in E1.
    destruct (Qle_bool lo x) eqn:E2.
    + apply Qle_bool_iff in E2. exists x. split; auto. split; lra.
    + apply Qle_bool_false in E2. exists lo. split; auto.
      split; [apply Qle_refl | auto].
Qed.

Lemma momentumScore_range (m : Market) (l p : Q) :
  last_price m = Some l -> previous_price m = Some p ->
  exists s, Sentiment.momentumScore_of m = Some s
            /\ (0 <= s)%Q /\ (s <= 100)%Q.
Proof.
  intros Hl Hp. unfold Sentiment.momentumScore_of. rewrite Hl, Hp.
  cbn [Sentiment.sub Sentiment.lift2].
  destruct (@clamp_bounds (-25) 25 (l - p)) as (c & Hc & H1 & H2);
    [lra|].
  rewrite Hc. eexists. split; [reflexivity|]. split; lra.
Qed.

Lemma spreadScore_range (m : Market) (a b : Q) :
  yes_ask m = Some a -> yes_bid m = Some b ->
  exists s, Sentiment.spreadScore_of m = Some s
            /\ (0 <= s)%Q /\ (s <= 100)%Q.
Proof.
  intros Ha Hb. unfold Sentiment.spreadScore_of. rewrite Ha, Hb.
  cbn [Sentiment.sub Sentiment.lift2].
  destruct (@clamp_bounds 0 20 (a - b)) as (c & Hc & H1 & H2); [lra|].
  rewrite Hc. eexists. split; [reflexivity|]. split; lra.
Qed.

Lemma volumeScore_range (mx : Q) (m : Market) (v : Q) :
  (0 < mx)%Q -> volume_24h m = Some v -> (0 <= v)%Q -> (v <= mx)%Q ->
  exists s, Sentiment.volumeScore_of mx m = Some s
            /\ (0 <= s)%Q /\ (s <= 100)%Q.
Proof.
  intros Hmx Hv H0 H1. unfold Sentiment.volumeScore_of. rewrite Hv.
  eexists. split; [reflexivity|].
  assert (Hlo : (0 <= v / mx)%Q) by (apply Qle_shift_div_l; lra).
  assert (Hhi : (v / mx <= 1)%Q) by (apply Qle_shift_div_r; lra).
  split; lra.
Qed.

Lemma maxVolume24h_spec (ms : list Market) : forall a,
  let mx := fold_left
              (fun maxVolume24h market =>
                 if Sentiment.gt (volume_24h market) maxVolume24h
                 then match volume_24h market with
                      | Some v => v
                      | None => maxVolume24h
                      end
                 else maxVolume24h) ms a in
  (a <= mx)%Q
  /\ forall m v, In m ms -> volume_24h m = Some v -> (v <= mx)%Q.
Proof.
  induction ms as [|m ms IH]; intros a; simpl.
  - split; [apply Qle_refl | tauto].
  - set (a' := if Sentiment.gt (volume_24h m) a
               then match volume_24h m with Some v => v | None => a end
               else a).
    destruct (IH a') as [H1 H2].
    assert (Hstep : (a <= a')%Q
                    /\ forall v, volume_24h m = Some v -> (v <= a')%Q).
    { unfold a', Sentiment.gt. destruct (volume_24h m) as [v|].
      - destruct (Js.gt v a) eqn:E.
        + apply gt_true_iff in E. split; [lra|].
          intros v' [= <-]. apply Qle_refl.
        + apply gt_false_iff in E. split; [apply Qle_refl|].
          intros v' [= <-]. exact E.
      - split; [apply Qle_refl | discriminate]. }
    destruct Hstep as [S1 S2].
    split; [eapply Qle_trans; eauto|].
    intros m' v [<-|Hin] Hv.
    + eapply Qle_trans; [apply S2; eauto | exact H1].
    + eapply H2; eauto.
Qed.

Lemma total_of_step (n : nat) (x s : Q) :
  (0 <= x)%Q -> (x <= 100 * inject_Z (Z.of_nat n))%Q ->
  (0 <= s)%Q -> (s <= 100)%Q ->
  (0 <= x + s)%Q /\ (x + s <= 100 * inject_Z (Z.of_nat (S n)))%Q.
Proof.
  intros. rewrite Nat2Z.inj_succ, <- Z.add_1_r, inject_Z_plus.
  change (inject_Z 1) with 1%Q. split; lra.
Qed.

Lemma total_of_keep (n : nat) (x : Sentiment.Num) :
  Sentiment.total_of n x -> Sentiment.total_of (S n) x.
Proof.
  intros (q & Hq & H0 & H1). exists q. split; auto. split; auto.
  rewrite Nat2Z.inj_succ, <- Z.add_1_r, inject_Z_plus.
  change (inject_Z 1) with 1%Q. lra.
Qed.

Lemma totals_bounded (mx : Q) : forall ms acc n,
  (forall m, In m ms ->
     Sentiment.complete m
     /\ forall v, volume_24h m = Some v -> (v <= mx)%Q) ->
  Sentiment.bounded n acc ->
  Sentiment.bounded (n + List.length ms)
    (fold_left (Sentiment.score_step mx) ms acc).
Proof.
  induction ms as [|m ms IH]; intros acc n Hall Hacc; simpl.
  - now rewrite Nat.add_0_r.
  - replace (n + S (List.length ms)) with (S n + List.length ms) by lia.
    apply IH; [intros m' Hin; apply Hall; now right|].
    destruct (Hall m (or_introl eq_refl))
      as [[(l & p & Hl & Hp) [(a & b & Ha & Hb) (v & Hv & Hv0)]] Hmax].
    destruct Hacc as ((tm & Htm & Hm0 & Hm1) & (tsp & Hts & Hs0 & Hs1)
                      & (tv & Htv & Hv1 & Hv2)).
    destruct (momentumScore_range m Hl Hp) as (sm & Hsm & ? & ?).
    destruct (spreadScore_range m Ha Hb) as (ss & Hss & ? & ?).
    unfold Sentiment.bounded, Sentiment.score_step.
    cbn [Sentiment.totalMomentumScore Sentiment.totalSpreadScore
         Sentiment.totalVolumeScore].
    rewrite Htm, Hts, Htv, Hsm, Hss. cbn [Sentiment.add Sentiment.lift2].
    split.
    { exists (tm + sm)%Q. split; auto. now apply total_of_step. }
    split.
    { exists (tsp + ss)%Q. split; auto. now apply total_of_step. }
    destruct (Js.gt mx 0) eqn:Hgt.
    + apply gt_true_iff in Hgt.
      destruct (@volumeScore_range mx m v Hgt Hv Hv0 (Hmax v Hv))
        as (sv & Hsv & ? & ?).
      rewrite Hsv. exists (tv + sv)%Q. split; auto.
      now apply total_of_step.
    + apply total_of_keep. exists tv. auto.
Qed.

Lemma average_in_range (n : nat) (x : Sentiment.Num) :
  0 < n -> Sentiment.total_of n x ->
  Sentiment.in_range
    (Sentiment.div x (Sentiment.num (inject_Z (Z.of_nat n)))).
Proof.
  intros Hn (q & -> & H0 & H1).
  assert (Hpos : (0 < inject_Z (Z.of_nat n))%Q).
  { change 0%Q with (inject_Z 0). rewrite <- Zlt_Qlt. lia. }
  eexists. split; [reflexivity|]. split.
  - apply Qle_shift_div_l; [auto | lra].
  - apply Qle_shift_div_r; auto.
Qed.

(** When the response holds at least one market and every market carries
    its last and previous price, its ask and bid and a 24-hour volume that
    is not negative, the momentum, spread and volume scores and the final
    score are numbers between 0 and 100, and the text is not the "Neutral"
    that the code starts from. *)
Theorem sentiment_in_range (response : MarketsResponse) :
  markets response <> [] ->
  (forall m, In m (markets response) -> Sentiment.complete m) ->
  let s := Sentiment.sentimentData (Some response) in
  Sentiment.in_range (Sentiment.finalScore s)
  /\ Sentiment.in_range (Sentiment.momentumScore s)
  /\ Sentiment.in_range (Sentiment.spreadScore s)
  /\ Sentiment.in_range (Sentiment.volumeScore s)
  /\ Sentiment.sentimentText s <> "Neutral".
Proof.
  intros Hne Hall. unfold Sentiment.sentimentData.
  destruct (markets response) as [|m0 ms] eqn:E; [congruence|].
  set (mkts := m0 :: ms) in *.
  set (mx := Sentiment.maxVolume24h mkts).
  set (totals := fold_left (Sentiment.score_step mx) mkts _).
  assert (Hb : Sentiment.bounded (List.length mkts) totals).
  { apply (@totals_bounded mx mkts _ 0).
    - intros m Hin. split; [now apply Hall|].
      intros v Hv. unfold mx, Sentiment.maxVolume24h.
      now apply (maxVolume24h_spec mkts 0) with (m := m).
    - assert (Hz : Sentiment.total_of 0 (Sentiment.num 0)).
      { exists 0%Q. split; [reflexivity|].
        split; [apply Qle_refl | unfold Qle; simpl; lia]. }
      split; [exact Hz|]. split; exact Hz. }
  destruct Hb as (Hm & Hs & Hv).
  assert (Hn : 0 < List.length mkts) by (simpl; lia).
  pose proof (average_in_range Hn Hm) as Am.
  pose proof (average_in_range Hn Hs) as As.
  assert (Av : Sentiment.in_range
                 (if Js.gt mx 0
                  then Sentiment.div (Sentiment.totalVolumeScore totals)
                         (Sentiment.num
                            (inject_Z (Z.of_nat (List.length mkts))))
                  else Sentiment.num 50)).
  { destruct (Js.gt mx 0).
    - now apply average_in_range.
    - exists 50%Q. split; [reflexivity|]. split; lra. }
  cbv zeta. cbn [Sentiment.finalScore Sentiment.momentumScore
                 Sentiment.spreadScore Sentiment.volumeScore
                 Sentiment.sentimentText].
  destruct Am as (am & Ham & ? & ?). destruct As as (asp & Has & ? & ?).
  destruct Av as (av & Hav & ? & ?).
  rewrite Ham, Has, Hav.
  split.
  { eexists. split; [reflexivity|]. split; lra. }
  split; [exists am; auto|]. split; [exists asp; auto|].
  split; [exists av; auto|].
  unfold Sentiment.text_of.
  repeat match goal with
         | |- context [if ?c then _ else _] => destruct c
         end; discriminate.
Qed.

Lemma sentiment_in_range_witness :
  Sentiment.in_range
    (Sentiment.finalScore
       (Sentiment.sentimentData (Some (response_of [quoted_market])))).
Proof.
  apply (@sentiment_in_range (response_of [quoted_market])).
  - discriminate.
  - intros m [<-|[]]. unfold Sentiment.complete. simpl.
    split; [exists 50%Q, 45%Q; split; reflexivity|].
    split; [exists 52%Q, 49%Q; split; reflexivity|].
    exists 1000%Q. split; [reflexivity | discriminate].
Defined.

Lemma momentum_total_nan (mx : Q) : forall ms acc,
  Sentiment.totalMomentumScore acc = None
  \/ (exists m, In m ms /\ Sentiment.momentumScore_of m = None) ->
  Sentiment.totalMomentumScore (fold_left (Sentiment.score_step mx) ms acc)
  = None.
Proof.
  induction ms as [|m ms IH]; intros acc H; simpl.
  - destruct H as [H|[m [[] _]]]. exact H.
  - apply IH. unfold Sentiment.score_step. simpl.
    destruct H as [H|[m' [[<-|Hin] Hm']]].
    + left. now rewrite H.
    + left. rewrite Hm'.
      now destruct (Sentiment.totalMomentumScore acc).
    + right. eauto.
Qed.

Lemma spread_total_nan (mx : Q) : forall ms acc,
  Sentiment.totalSpreadScore acc = None
  \/ (exists m, In m ms /\ Sentiment.spreadScore_of m = None) ->
  Sentiment.totalSpreadScore (fold_left (Sentiment.score_step mx) ms acc)
  = None.
Proof.
  induction ms as [|m ms IH]; intros acc H; simpl.
  - destruct H as [H|[m [[] _]]]. exact H.
  - apply IH. unfold Sentiment.score_step. simpl.
    destruct H as [H|[m' [[<-|Hin] Hm']]].
    + left. now rewrite H.
    + left. rewrite Hm'.
      now destruct (Sentiment.totalSpreadScore acc).
    + right. eauto.
Qed.

(** When one market of the response lacks its last or previous price, its
    ask or its bid, the final score is NaN, and since NaN passes none of the
    three comparisons the text is "Extreme Greed". *)
Theorem sentiment_missing_quote_is_extreme_greed
  (response : MarketsResponse) (m : Market) :
  In m (markets response) ->
  last_price m = None \/ previous_price m = None
  \/ yes_ask m = None \/ yes_bid m = None ->
  let s := Sentiment.sentimentData (Some response) in
  Sentiment.finalScore s = None
  /\ Sentiment.sentimentText s = "Extreme Greed".
Proof.
  intros Hin Hmiss. unfold Sentiment.sentimentData.
  destruct (markets response) as [|m0 ms] eqn:E; [destruct Hin|].
  set (mkts := m0 :: ms) in *.
  set (mx := Sentiment.maxVolume24h mkts).
  set (totals := fold_left (Sentiment.score_step mx) mkts _).
  set (n := Sentiment.num (inject_Z (Z.of_nat (List.length mkts)))).
  assert (Hnan : Sentiment.totalMomentumScore totals = None
                 \/ Sentiment.totalSpreadScore totals = None).
  { destruct Hmiss as [H|[H|[H|H]]].
    - left. apply momentum_total_nan. right. exists m. split; auto.
      unfold Sentiment.momentumScore_of. now rewrite H.
    - left. apply momentum_total_nan. right. exists m. split; auto.
      unfold Sentiment.momentumScore_of. rewrite H.
      now destruct (last_price m).
    - right. apply spread_total_nan. right. exists m. split; auto.
      unfold Sentiment.spreadScore_of. now rewrite H.
    - right. apply spread_total_nan. right. exists m. split; auto.
      unfold Sentiment.spreadScore_of. rewrite H.
      now destruct (yes_ask m). }
  cbv zeta. cbn [Sentiment.finalScore Sentiment.sentimentText].
  assert (Hfinal :
    Sentiment.add
      (Sentiment.add
         (Sentiment.mul (Sentiment.div (Sentiment.totalMomentumScore totals) n)
            (Sentiment.num 0.4))
         (Sentiment.mul (Sentiment.div (Sentiment.totalSpreadScore totals) n)
            (Sentiment.num 0.4)))
      (Sentiment.mul
         (if Js.gt mx 0
          then Sentiment.div (Sentiment.totalVolumeScore totals) n
          else Sentiment.num 50)
         (Sentiment.num 0.2)) = None).
  { destruct Hnan as [-> | ->].
    - reflexivity.
    - now destruct (Sentiment.totalMomentumScore totals). }
  fold n. rewrite Hfinal. split; reflexivity.
Qed.

Lemma sentiment_missing_quote_is_extreme_greed_witness :
  Sentiment.sentimentText
    (Sentiment.sentimentData
       (Some (response_of
                [quoted_market;
                 new_entry (align [("X", scenario_A_details)] scenario_A_trade)
                   true])))
  = "Extreme Greed".
Proof.
  apply (@sentiment_missing_quote_is_extreme_greed
           (response_of
              [quoted_market;
               new_entry (align [("X", scenario_A_details)] scenario_A_trade)
                 true])
           (new_entry (align [("X", scenario_A_details)] scenario_A_trade)
              true)).
  - simpl. auto.
  - right. left. reflexivity.
Defined.

(** * The cycle as a whole *)

Lemma marketTickers_In (ts : list Trade) (k : string) :
  In k (marketTickers ts) <-> exists t, In t ts /\ ticker t = k.
Proof.
  unfold marketTickers.
  destruct (@new_Set_spec (map ticker ts) [] (NoDup_nil _)) as (_ & H & _).
  rewrite H, in_map_iff. split.
  - intros [[]|[t [Ht Hin]]]. eauto.
  - intros [t [Hin Ht]]. right. eauto.
Qed.

(** The table of a cycle holds an undefined value exactly when the lookup
    of a traded ticker was fulfilled with a body that has neither a market
    nor an event. *)
Lemma has_undefined_iff (up : Upstream) (ts : list Trade) table :
  marketInfoCache (marketTickers ts) (marketInfoResults up (marketTickers ts))
  = returns table ->
  has_undefined table = true
  <-> exists t, In t ts /\ marketInfo up (ticker t) = fulfilled OtherResponse.
Proof.
  intros Htable. rewrite has_undefined_true_iff. split.
  - intros [k Hin].
    assert (Hkey : In k (JsMap.keys table)).
    { change k with (fst (k, @None MarketMetadata)).
      unfold JsMap.keys. now apply in_map. }
    assert (Hnd : NoDup (JsMap.keys table)).
    { apply (@forEach_NoDup up (marketTickers ts) JsMap.empty table Htable).
      constructor. }
    apply (JsMapFacts.In_get _ _ _ Hnd) in Hin.
    destruct (@marketInfoCache_key up (marketTickers ts) table k Htable Hkey)
      as (Hk & value & data & Hful & Hdata & Hget).
    apply marketTickers_In in Hk. destruct Hk as [t [Ht <-]].
    exists t. split; auto. rewrite Hful. f_equal.
    rewrite Hin in Hget. injection Hget as <-.
    destruct value; simpl in Hdata; congruence.
  - intros [t [Hin Hful]].
    assert (Hk : In (ticker t) (marketTickers ts))
      by (apply marketTickers_In; eauto).
    destruct (@marketInfoCache_fulfilled up (marketTickers ts) table
                (ticker t) _ Htable Hk Hful) as (data & Hdata & Hget).
    simpl in Hdata. injection Hdata as <-.
    exists (ticker t). now apply JsMapFacts.get_In.
Qed.

(** A rollup for a ticker is in the map of a cycle that completes exactly
    when a trade of the cycle is on that ticker and the lookup of the ticker
    was fulfilled.  The cycle does not complete, and is rejected, exactly
    when the lookup of a traded ticker is fulfilled with a body that is
    null or has neither a market nor an event. *)
Theorem rollup_iff_traded_and_fulfilled (up : Upstream) :
  let ts := allTrades (paginate up) in
  (queryFn up = rejected
   <-> exists t,
         In t ts
         /\ (marketInfo up (ticker t) = fulfilled OtherResponse
             \/ marketInfo up (ticker t) = fulfilled NullResponse))
  /\ (forall table,
        marketInfoCache (marketTickers ts)
          (marketInfoResults up (marketTickers ts)) = returns table ->
        has_undefined table = false ->
        forall y,
          (exists r, JsMap.get (marketsMap (records_of table) ts) y = Some r)
          <-> (exists t, In t ts /\ ticker t = y)
              /\ exists value, marketInfo up y = fulfilled value).
Proof.
  intros ts. split.
  - unfold queryFn. fold ts.
    destruct (marketInfoCache (marketTickers ts)
                (marketInfoResults up (marketTickers ts)))
      as [table|] eqn:Htable.
    + pose proof (@has_undefined_iff up ts table Htable) as Hundef.
      destruct (has_undefined table) eqn:Hdef.
      * split; auto. intros _.
        destruct (proj1 Hundef eq_refl) as [t [Hin Hful]]. eauto.
      * split; [discriminate|]. intros [t [Hin [Hful|Hful]]].
        -- exfalso. assert (false = true); [|discriminate].
           apply Hundef. eauto.
        -- exfalso.
           assert (Hthrows : marketInfoCache (marketTickers ts)
                               (marketInfoResults up (marketTickers ts))
                             = throws).
           { apply marketInfoCache_throws_iff. exists (ticker t).
             split; auto. apply marketTickers_In. eauto. }
           congruence.
    + split; auto. intros _.
      apply marketInfoCache_throws_iff in Htable.
      destruct Htable as [k [Hk Hful]].
      apply marketTickers_In in Hk. destruct Hk as [t [Hin <-]]. eauto.
  - intros table Htable Hdef y.
    set (cache := records_of table).
    assert (Hcache : JsMap.has cache y = true
                     <-> (exists t, In t ts /\ ticker t = y)
                         /\ exists value, marketInfo up y = fulfilled value).
    { unfold cache. rewrite records_of_has by exact Hdef.
      rewrite <- marketTickers_In.
      pose proof (@marketInfoCache_get up (marketTickers ts) y table Htable)
        as Hget.
      unfold JsMap.has.
      destruct (existsb (String.eqb y) (marketTickers ts)) eqn:E.
      - apply existsb_eqb_In in E.
        destruct (marketInfo up y) as [value|].
        + destruct Hget as [data [_ ->]]. split; eauto.
        + rewrite Hget. split; [discriminate|].
          intros [_ [value Hv]]. discriminate.
      - apply existsb_eqb_not_In in E. rewrite Hget.
        split; [discriminate | tauto]. }
    split.
    + intros [r Hget]. apply Hcache. now apply marketsMap_resolved in Hget.
    + intros H. pose proof H as [Htrade _]. apply Hcache in H.
      rewrite marketsMap_get by assumption. now apply entry_after_some.
Qed.




(** ** The metrics of the sidebar *)





(** ** The analysis route *)

